(** * github-personal-assistant: a shallow embedding of [src/tools.js] and
      [src/index.js]

    The program is a LangGraph agent: a model node ([callModel]), a tool node
    over eight GitHub / git tools, and a router ([shouldContinue]).  Every
    tool is an [async] function whose body is one [try { ... } catch] block
    around calls to two collaborators (octokit and simple-git).

    Effects are modelled with a small monad [M]: a computation yields the
    trace of the collaborator calls and console lines it performed, in
    order, and either a value or the JavaScript exception it threw.  What
    the collaborators answer is read from a [World] record. *)

From Stdlib Require Import String Ascii List Bool ZArith NArith Lia.
From Stdlib Require Import DecimalString.
Import ListNotations.
Local Open Scope list_scope.
Local Open Scope string_scope.

(* ===================================================================== *)
(** ** JavaScript values that leave the program as text *)
(* ===================================================================== *)

Module JS.

(** The values the tools hand to [JSON.stringify], and the argument
    objects the model sends with a tool call. *)
#[warnings="-register-all"] Inductive JSON : Type :=
| JNull
| JBool (b : bool)
| JNumber (z : Z)
| JString (s : string)
| JArray (items : list JSON)
| JObject (fields : list (string * JSON)).

Definition quote : string := String (ascii_of_nat 34) EmptyString.
Definition backslash : string := String (ascii_of_nat 92) EmptyString.

Definition hex_digit (n : nat) : ascii :=
  nth n (list_ascii_of_string "0123456789abcdef") "0"%char.

(** One character of a string literal, as [JSON.stringify] writes it. *)
Definition escape_char (c : ascii) : string :=
  let n := nat_of_ascii c in
  if Nat.eqb n 34 then backslash ++ quote
  else if Nat.eqb n 92 then backslash ++ backslash
  else if Nat.eqb n 8 then backslash ++ "b"
  else if Nat.eqb n 9 then backslash ++ "t"
  else if Nat.eqb n 10 then backslash ++ "n"
  else if Nat.eqb n 12 then backslash ++ "f"
  else if Nat.eqb n 13 then backslash ++ "r"
  else if Nat.ltb n 32 then
    backslash ++ "u00"
      ++ String (hex_digit (n / 16)) (String (hex_digit (n mod 16)) "")
  else String c "".

Fixpoint escape (s : string) : string :=
  match s with
  | EmptyString => ""
  | String c rest => escape_char c ++ escape rest
  end.

Definition string_literal (s : string) : string := quote ++ escape s ++ quote.

Definition number_literal (z : Z) : string :=
  NilZero.string_of_int (Z.to_int z).

(** [JSON.stringify(value)] without indentation: members in insertion
    order, separated by commas, no white space. *)
Fixpoint stringify (j : JSON) : string :=
  match j with
  | JNull => "null"
  | JBool true => "true"
  | JBool false => "false"
  | JNumber z => number_literal z
  | JString s => string_literal s
  | JArray items =>
      "[" ++ (fix elements (l : list JSON) : string :=
                match l with
                | [] => ""
                | x :: rest =>
                    match rest with
                    | [] => stringify x
                    | _ :: _ => stringify x ++ "," ++ elements rest
                    end
                end) items ++ "]"
  | JObject fields =>
      "{" ++ (fix members (l : list (string * JSON)) : string :=
                match l with
                | [] => ""
                | (k, v) :: rest =>
                    match rest with
                    | [] => string_literal k ++ ":" ++ stringify v
                    | _ :: _ =>
                        string_literal k ++ ":" ++ stringify v ++ ","
                          ++ members rest
                    end
                end) fields ++ "}"
  end.

(** Property access [obj.key] on an argument object; [None] is
    [undefined]. *)
Fixpoint get (key : string) (obj : list (string * JSON)) : option JSON :=
  match obj with
  | [] => None
  | (k, v) :: rest => if String.eqb k key then Some v else get key rest
  end.

(** A nullable string field of an API answer. *)
Definition nullable (s : option string) : JSON :=
  match s with
  | Some v => JString v
  | None => JNull
  end.

(** [Buffer.from(text).toString("base64")] on the bytes of [text]. *)
Definition base64_alphabet : list ascii :=
  list_ascii_of_string
    "ABCDEFGHIJKLMNOPQRSTUVWXYZabcdefghijklmnopqrstuvwxyz0123456789+/".

Definition base64_digit (n : N) : ascii :=
  nth (N.to_nat (N.land n 63)) base64_alphabet "="%char.

Fixpoint base64_bytes (bytes : list N) : string :=
  match bytes with
  | [] => ""
  | [a] =>
      let n := N.shiftl a 16 in
      String (base64_digit (N.shiftr n 18))
        (String (base64_digit (N.shiftr n 12)) "==")
  | [a; b] =>
      let n := N.lor (N.shiftl a 16) (N.shiftl b 8) in
      String (base64_digit (N.shiftr n 18))
        (String (base64_digit (N.shiftr n 12))
           (String (base64_digit (N.shiftr n 6)) "="))
  | a :: b :: c :: rest =>
      let n := N.lor (N.lor (N.shiftl a 16) (N.shiftl b 8)) c in
      String (base64_digit (N.shiftr n 18))
        (String (base64_digit (N.shiftr n 12))
           (String (base64_digit (N.shiftr n 6))
              (String (base64_digit n) (base64_bytes rest))))
  end.

Definition to_base64 (text : string) : string :=
  base64_bytes (map N_of_ascii (list_ascii_of_string text)).

(** [haystack.startsWith(prefix)], returning what follows the prefix. *)
Fixpoint strip_prefix (prefix haystack : string) : option string :=
  match prefix, haystack with
  | EmptyString, _ => Some haystack
  | String p prefix', String h haystack' =>
      if Ascii.eqb p h then strip_prefix prefix' haystack' else None
  | String _ _, EmptyString => None
  end.

(** The replacement text of [replace] for one match: [$$] stands for a
    dollar sign, [$&] for the matched text, [$`] for the text before the
    match and [$'] for the text after it; a string pattern has no capture
    groups, so any other [$] is kept as it is. *)
Fixpoint expand (matched before after replacement : string) : string :=
  match replacement with
  | EmptyString => ""
  | String c tail =>
      if Ascii.eqb c "$"%char then
        match tail with
        | String d rest =>
            if Ascii.eqb d "$"%char then
              String "$"%char (expand matched before after rest)
            else if Ascii.eqb d "&"%char then
              matched ++ expand matched before after rest
            else if Ascii.eqb d "`"%char then
              before ++ expand matched before after rest
            else if Ascii.eqb d "'"%char then
              after ++ expand matched before after rest
            else String c (expand matched before after tail)
        | EmptyString => String c ""
        end
      else String c (expand matched before after tail)
  end.

(** The search of [replace] through [text], [before] being the text already
    passed. *)
Fixpoint replace_from (pattern replacement before text : string) : string :=
  match strip_prefix pattern text with
  | Some rest => before ++ expand pattern before rest replacement ++ rest
  | None =>
      match text with
      | EmptyString => before
      | String c rest =>
          replace_from pattern replacement (before ++ String c "") rest
      end
  end.

(** [text.replace(pattern, replacement)] with a string pattern and a string
    replacement: only the first occurrence is replaced, by the expanded
    replacement. *)
Definition replace (pattern replacement text : string) : string :=
  replace_from pattern replacement "" text.

End JS.

(* ===================================================================== *)
(** ** Messages, collaborator requests and the effect trace *)
(* ===================================================================== *)

(** What a rejected promise or a failing property access throws. *)
Inductive Fault : Type :=
| RequestError (status : Z) (message : string)   (* octokit: HTTP failure *)
| GitError (message : string)                    (* simple-git: git failed *)
| TypeError (message : string)                   (* property of null / undefined *)
| EngineError (message : string).                (* the chat model call failed *)

Definition fault_message (e : Fault) : string :=
  match e with
  | RequestError _ m | GitError m | TypeError m | EngineError m => m
  end.

Inductive result (A : Type) : Type :=
| Ok (value : A)
| Thrown (error : Fault).
Arguments Ok {A} value.
Arguments Thrown {A} error.

(** A tool call carried by an assistant message: the tool's name, the
    argument object and the id its result must quote. *)
Record ToolCall : Type := {
  call_name : string;
  call_args : list (string * JS.JSON);
  call_id : string
}.

(** What the chat model answers: text and zero or more tool calls. *)
Record AIMessage : Type := {
  ai_content : string;
  tool_calls : list ToolCall
}.

Inductive Message : Type :=
| System (content : string)
| Human (content : string)
| AI (response : AIMessage)
| ToolMessage (content : string) (name : string) (tool_call_id : string).

Definition content (m : Message) : string :=
  match m with
  | System c | Human c | ToolMessage c _ _ => c
  | AI r => ai_content r
  end.

(** Requests to the GitHub REST API, with the parameters the tools pass. *)
Inductive ApiRequest : Type :=
| UsersGetAuthenticated
| ReposGet (owner repo : string)
| PostUserRepos (name description homepage : string)
    (private auto_init : bool) (headers : list (string * string))
| ReposDelete (owner repo : string)
| ReposListCommits (owner repo : string) (per_page page : Z)
| ReposCreateOrUpdateFileContents (owner repo message content path : string)
| ReposUpdate (owner repo : string) (description visibility : option string)
    (private : bool).

(** Commands sent to simple-git. *)
Inductive GitCmd : Type :=
| GitInit
| GitAdd (files : string)
| GitCommit (message : string)
| GitBranchLocal
| GitCheckout (branch : string)
| GitCheckoutLocalBranch (branch : string)
| GitGetRemotes (verbose : bool)
| GitRemoveRemote (name : string)
| GitAddRemote (name url : string)
| GitPull (remote branch : string) (options : list (string * string))
| GitPush (args : list string)
| GitClone (repoPath localPath : string).

(** Everything the program does to the outside, in the order it does it.
    [Git dir c]: command [c] on the handle [simpleGit(dir)]; [None] is
    [simpleGit()], the working directory of the process. *)
Inductive Event : Type :=
| Octokit (req : ApiRequest)
| Git (baseDir : option string) (cmd : GitCmd)
| ConsoleError (label : string) (error : Fault)
| ConsoleWarn (label detail : string)
| ConsoleLog (label detail : string)
| LlmInvoke (messages : list Message).

(** Answers of the GitHub API, with the fields the tools read. *)
Record Owner : Type := {
  login : string;
  avatar_url : string;
  user_view_type : string
}.

Record Repo : Type := {
  repo_id : Z;
  repo_name : string;
  repo_description : option string;      (* null when the repo has none *)
  repo_owner : Owner;
  repo_private : bool;
  repo_html_url : string;
  repo_created_at : string;
  repo_clone_url : string
}.

Record GitUser : Type := {
  user_name : string;
  user_date : string
}.

Record CommitDetail : Type := {
  commit_message : string;
  committer : option GitUser             (* nullable in the API *)
}.

Record Commit : Type := {
  node_id : string;
  sha : string;
  commit : CommitDetail
}.

Record Remote : Type := {
  remote_name : string;
  remote_fetch : string;
  remote_push : string
}.

(** The collaborators.  Each answer may depend on the whole request; a
    [Thrown] answer is a rejected promise. *)
Record World : Type := {
  GITHUB_ACCESS_TOKEN : option string;        (* process.env, may be undefined *)
  dirname : string;                           (* __dirname *)
  path_join : string -> string -> string;     (* node:path join *)
  users_getAuthenticated : ApiRequest -> result Owner;
  repos_get : ApiRequest -> result Repo;
  post_user_repos : ApiRequest -> result Repo;
  repos_delete : ApiRequest -> result (option Z);     (* response?.status *)
  repos_listCommits : ApiRequest -> result (list Commit);
  repos_createOrUpdateFileContents : ApiRequest -> result string; (* response.url *)
  repos_update : ApiRequest -> result unit;
  simpleGit_fault : option string -> option Fault;    (* simpleGit(dir) refused *)
  git_fault : option string -> GitCmd -> option Fault;
  git_branches : option string -> list string;        (* branchLocal().all *)
  git_remotes : option string -> list Remote;         (* getRemotes(true) *)
  llm_invoke : list Message -> result AIMessage
}.

(* ===================================================================== *)
(** ** The effect monad *)
(* ===================================================================== *)

Definition M (A : Type) : Type := (list Event * result A)%type.

Definition ret {A : Type} (a : A) : M A := ([], Ok a).

Definition throw {A : Type} (e : Fault) : M A := ([], Thrown e).

Definition bind {A B : Type} (m : M A) (k : A -> M B) : M B :=
  match m with
  | (t, Ok a) => let (t', r) := k a in ((t ++ t')%list, r)
  | (t, Thrown e) => (t, Thrown e)
  end.

(** [try { m } catch (e) { handler e }] *)
Definition try_catch {A : Type} (m : M A) (handler : Fault -> M A) : M A :=
  match m with
  | (t, Ok a) => (t, Ok a)
  | (t, Thrown e) => let (t', r) := handler e in ((t ++ t')%list, r)
  end.

Definition emit (e : Event) : M unit := ([e], Ok tt).

Definition trace {A : Type} (m : M A) : list Event := fst m.
Definition outcome {A : Type} (m : M A) : result A := snd m.

Declare Scope monad_scope.
Delimit Scope monad_scope with monad.
Notation "x <- c1 ;; c2" := (bind c1 (fun x => c2))
  (at level 61, c1 at next level, right associativity) : monad_scope.
Notation "c1 ;; c2" := (bind c1 (fun _ => c2))
  (at level 61, right associativity) : monad_scope.
Local Open Scope monad_scope.

Definition console_error (label : string) (error : Fault) : M unit :=
  emit (ConsoleError label error).

Definition console_warn (label detail : string) : M unit :=
  emit (ConsoleWarn label detail).

Definition console_log (label detail : string) : M unit :=
  emit (ConsoleLog label detail).

(** [await octokit...(req)]: the request is sent, then the promise settles. *)
Definition octokit {A : Type} (answer : ApiRequest -> result A)
    (req : ApiRequest) : M A :=
  ([Octokit req], answer req).

(** [simpleGit(dir)]: the handle for [dir], unless the library refuses the
    directory. *)
Definition simpleGit (w : World) (dir : option string) : M (option string) :=
  ([],
   match simpleGit_fault w dir with
   | None => Ok dir
   | Some e => Thrown e
   end).

(** [await git.cmd(...)] on the handle for [dir]. *)
Definition git (w : World) (dir : option string) (cmd : GitCmd) : M unit :=
  ([Git dir cmd],
   match git_fault w dir cmd with
   | None => Ok tt
   | Some e => Thrown e
   end).

(* ===================================================================== *)
(** ** [src/tools.js] *)
(* ===================================================================== *)

(** Modelled from the spec: the argument validation done by the [tool]
    wrapper before it runs the execution function (the zod library is not
    part of the repository).  An argument object is accepted when every
    declared field is present with its declared type, or absent when the
    field is optional; fields the schema does not declare are dropped.  The
    [.describe(...)] texts of the fields do not take part. *)
Module Zod.

Definition Args : Type := list (string * JS.JSON).

(** [key: z.string()] *)
Definition string (key : String.string) (args : Args) : option String.string :=
  match JS.get key args with
  | Some (JS.JString s) => Some s
  | _ => None
  end.

(** [key: z.string().optional()] *)
Definition optional_string (key : String.string) (args : Args)
  : option (option String.string) :=
  match JS.get key args with
  | None => Some None
  | Some (JS.JString s) => Some (Some s)
  | Some _ => None
  end.

(** [key: z.enum(values).optional()] *)
Definition optional_enum (values : list String.string) (key : String.string)
    (args : Args) : option (option String.string) :=
  match JS.get key args with
  | None => Some None
  | Some (JS.JString s) =>
      if existsb (String.eqb s) values then Some (Some s) else None
  | Some _ => None
  end.

End Zod.

(** The parameter objects, one per schema of the file. *)
Module CreateParams.
Record t : Type := { repoName : string; description : string }.
Definition schema (args : Zod.Args) : option t :=
  match Zod.string "repoName" args, Zod.string "description" args with
  | Some r, Some d => Some {| repoName := r; description := d |}
  | _, _ => None
  end.
End CreateParams.

Module RepoParams.
Record t : Type := { repoName : string }.
Definition schema (args : Zod.Args) : option t :=
  match Zod.string "repoName" args with
  | Some r => Some {| repoName := r |}
  | None => None
  end.
End RepoParams.

Module PushParams.
Record t : Type := {
  repoName : string;
  commitMessage : string;
  projectName : string
}.
Definition schema (args : Zod.Args) : option t :=
  match Zod.string "repoName" args, Zod.string "commitMessage" args,
        Zod.string "projectName" args with
  | Some r, Some c, Some p =>
      Some {| repoName := r; commitMessage := c; projectName := p |}
  | _, _, _ => None
  end.
End PushParams.

Module FileParams.
Record t : Type := { fileName : string; repoName : string }.
Definition schema (args : Zod.Args) : option t :=
  match Zod.string "fileName" args, Zod.string "repoName" args with
  | Some f, Some r => Some {| fileName := f; repoName := r |}
  | _, _ => None
  end.
End FileParams.

Module UpdateParams.
Record t : Type := {
  description : option string;
  repoName : string;
  visibility : option string
}.
Definition schema (args : Zod.Args) : option t :=
  match Zod.optional_string "description" args, Zod.string "repoName" args,
        Zod.optional_enum ["public"; "private"; "internal"] "visibility" args
  with
  | Some d, Some r, Some v =>
      Some {| description := d; repoName := r; visibility := v |}
  | _, _, _ => None
  end.
End UpdateParams.

(** What [tool(func, { name, description, schema })] builds.  [invoke]
    answers [None] when the schema rejects the arguments (the execution
    function is then not run). *)
Record StructuredTool : Type := {
  tool_name : string;
  tool_description : string;
  invoke : World -> Zod.Args -> option (M string)
}.

Definition tool {P : Type} (func : World -> P -> M string)
    (name description : string) (schema : Zod.Args -> option P)
  : StructuredTool :=
  {| tool_name := name;
     tool_description := description;
     invoke := fun w args => option_map (func w) (schema args) |}.

Section Tools.

Variable w : World.

Definition getOwner : M string :=
  data <- octokit (users_getAuthenticated w) UsersGetAuthenticated ;;
  ret (login data).

Definition getRepoDetails (owner repo : string) : M Repo :=
  data <- octokit (repos_get w) (ReposGet owner repo) ;;
  ret data.

(** Each execution function is [try { body } catch (error) {
    console.error("ERROR: ", error) }] followed by the [return] of a fixed
    text.  The [try] block of the function [f] is [f_try]: it yields
    [Some text] when it reaches a [return] and [None] when it runs off the
    end of the block. *)

Definition createGitRepository_try (params : CreateParams.t)
  : M (option string) :=
  let repoName := CreateParams.repoName params in
  let description := CreateParams.description params in
  response <- octokit (post_user_repos w)
                (PostUserRepos repoName description "https://github.com"
                   false false
                   [("X-GitHub-Api-Version", "2022-11-28")]) ;;
  ret (Some ("git repository created successfully!! "
               ++ repo_html_url response)).

Definition createGitRepository_func (params : CreateParams.t) : M string :=
  returned <-
    try_catch (createGitRepository_try params)
      (fun error => console_error "ERROR: " error ;; ret None) ;;
  match returned with
  | Some text => ret text
  | None => ret "Not able to create git repository, try again later"
  end.

Definition deleteRepository_try (params : RepoParams.t)
  : M (option string) :=
  let repoName := RepoParams.repoName params in
  owner <- getOwner ;;
  response <- octokit (repos_delete w) (ReposDelete owner repoName) ;;
  match response with
  | Some status =>
      if Z.eqb status 204
      then ret (Some "Repository deleted successfully!")
      else ret None
  | None => ret None
  end.

Definition deleteRepository_func (params : RepoParams.t) : M string :=
  returned <-
    try_catch (deleteRepository_try params)
      (fun error => console_error "ERROR: " error ;; ret None) ;;
  match returned with
  | Some text => ret text
  | None => ret "Not able to delete the repository"
  end.

(** The object literal [repoDetails] of [getRepository]. *)
Definition repoDetails (data : Repo) : JS.JSON :=
  JS.JObject
    [ ("id", JS.JNumber (repo_id data));
      ("name", JS.JString (repo_name data));
      ("description", JS.nullable (repo_description data));
      ("owner", JS.JString (login (repo_owner data)));
      ("private", JS.JBool (repo_private data));
      ("url", JS.JString (repo_html_url data));
      ("createdAt", JS.JString (repo_created_at data));
      ("avatarUrl", JS.JString (avatar_url (repo_owner data)));
      ("userViewType", JS.JString (user_view_type (repo_owner data))) ].

Definition getRepository_try (params : RepoParams.t)
  : M (option string) :=
  let repoName := RepoParams.repoName params in
  owner <- getOwner ;;
  data <- getRepoDetails owner repoName ;;
  ret (Some (JS.stringify (repoDetails data))).

Definition getRepository_func (params : RepoParams.t) : M string :=
  returned <-
    try_catch (getRepository_try params)
      (fun error => console_error "ERROR: " error ;; ret None) ;;
  match returned with
  | Some text => ret text
  | None => ret "Not able to fetch more details of the repository"
  end.

(** [`${process.env.GITHUB_ACCESS_TOKEN}`]: an unset variable prints as
    [undefined]. *)
Definition token_text : string :=
  match GITHUB_ACCESS_TOKEN w with
  | Some token => token
  | None => "undefined"
  end.

Definition gitPush_try (params : PushParams.t)
  : M (option string) :=
  let projectName := PushParams.projectName params in
  let repoName := PushParams.repoName params in
  let commitMessage := PushParams.commitMessage params in
  owner <- getOwner ;;
  data <- getRepoDetails owner repoName ;;
  let projectPath := path_join w (dirname w) ("../" ++ projectName) in
  (* Use repo URL with PAT for authentication *)
  let authedUrl :=
    JS.replace "https://" ("https://" ++ token_text ++ "@")
      (repo_html_url data) in
  handle <- simpleGit w (Some projectPath) ;;
  (* 1. Init git *)
  git w handle GitInit ;;
  (* 2. Add files *)
  git w handle (GitAdd "./*") ;;
  (* 3. Commit files *)
  git w handle (GitCommit commitMessage) ;;
  (* 4. Switch/create 'main' safely *)
  git w handle GitBranchLocal ;;
  let branches := git_branches w handle in
  (if existsb (String.eqb "main") branches
   then git w handle (GitCheckout "main")
   else git w handle (GitCheckoutLocalBranch "main")) ;;
  (* 5. Add remote safely *)
  git w handle (GitGetRemotes true) ;;
  let remotes := git_remotes w handle in
  (if existsb (fun r => String.eqb (remote_name r) "origin") remotes
   then git w handle (GitRemoveRemote "origin")
   else ret tt) ;;
  git w handle (GitAddRemote "origin" authedUrl) ;;
  (* 6. Pull remote changes if any *)
  try_catch
    (git w handle (GitPull "origin" "main" [("--rebase", "true")]))
    (fun pullErr =>
       console_warn "⚠️ Pull failed (probably empty repo):"
         (fault_message pullErr)) ;;
  (* 7. Push and set upstream *)
  git w handle (GitPush ["-u"; "origin"; "main"]) ;;
  ret (Some "✅ Files pushed successfully!").

Definition gitPush_func (params : PushParams.t) : M string :=
  returned <-
    try_catch (gitPush_try params)
      (fun error => console_error "ERROR: " error ;; ret None) ;;
  match returned with
  | Some text => ret text
  | None => ret "❌ Git push operation failed"
  end.

Definition gitCloneRepository_try (params : RepoParams.t)
  : M (option string) :=
  let repoName := RepoParams.repoName params in
  owner <- getOwner ;;
  data <- getRepoDetails owner repoName ;;
  let cloneUrl := repo_clone_url data in
  let localPath := "your local file path" in
  handle <- simpleGit w None ;;
  git w handle (GitClone cloneUrl localPath) ;;
  ret (Some ("✅ Repo " ++ owner ++ "/" ++ repoName ++ " cloned into "
               ++ localPath)).

Definition gitCloneRepository_func (params : RepoParams.t) : M string :=
  returned <-
    try_catch (gitCloneRepository_try params)
      (fun error => console_error "ERROR: " error ;; ret None) ;;
  match returned with
  | Some text => ret text
  | None => ret "repo cloning is failed"
  end.

(** The callback of [data.map] in [getCommitsByRepoName].  Reading
    [.name] of a null committer throws. *)
Definition commitEntry (c : Commit) : M JS.JSON :=
  match committer (commit c) with
  | Some who =>
      ret (JS.JObject
             [ ("commitId", JS.JString (node_id c));
               ("sha", JS.JString (sha c));
               ("message", JS.JString (commit_message (commit c)));
               ("committerName", JS.JString (user_name who));
               ("date", JS.JString (user_date who)) ])
  | None => throw (TypeError "Cannot read properties of null (reading 'name')")
  end.

(** [array.map(callback)] for a callback that may throw. *)
Fixpoint array_map {A B : Type} (callback : A -> M B) (array : list A)
  : M (list B) :=
  match array with
  | [] => ret []
  | x :: rest =>
      y <- callback x ;;
      ys <- array_map callback rest ;;
      ret (y :: ys)
  end.

Definition getCommitsByRepoName_try (params : RepoParams.t)
  : M (option string) :=
  let repoName := RepoParams.repoName params in
  owner <- getOwner ;;
  data <- octokit (repos_listCommits w)
            (ReposListCommits owner repoName
               10   (* number of commits per page (max 100) *)
               1)   (* pagination (start at page 1) *) ;;
  commitMessages <- array_map commitEntry data ;;
  ret (Some (JS.stringify (JS.JArray commitMessages))).

Definition getCommitsByRepoName_func (params : RepoParams.t) : M string :=
  returned <-
    try_catch (getCommitsByRepoName_try params)
      (fun error => console_error "ERROR: " error ;; ret None) ;;
  match returned with
  | Some text => ret text
  | None => ret "Not able to fetch commit details"
  end.

Definition createOrUpdateGitFile_try (params : FileParams.t)
  : M (option string) :=
  let fileName := FileParams.fileName params in
  let repoName := FileParams.repoName params in
  owner <- getOwner ;;
  response_url <-
    octokit (repos_createOrUpdateFileContents w)
      (ReposCreateOrUpdateFileContents owner repoName
         "add hello.txt"
         (JS.to_base64 "Hello from octokit!!")
         fileName) ;;
  ret (Some ("File added successfully!. "
               ++ JS.stringify
                    (JS.JObject [("url", JS.JString response_url)]))).

Definition createOrUpdateGitFile_func (params : FileParams.t) : M string :=
  returned <-
    try_catch (createOrUpdateGitFile_try params)
      (fun error => console_error "ERROR: " error ;; ret None) ;;
  match returned with
  | Some text => ret text
  | None => ret "Neither file created or updated"
  end.

(** [value === text] for a value that is a string or [undefined]. *)
Definition strict_equal (value : option string) (text : string) : bool :=
  match value with
  | Some v => String.eqb v text
  | None => false
  end.

Definition updateRepository_try (params : UpdateParams.t)
  : M (option string) :=
  let repoName := UpdateParams.repoName params in
  let description := UpdateParams.description params in
  let visibility := UpdateParams.visibility params in
  owner <- getOwner ;;
  octokit (repos_update w)
    (ReposUpdate owner repoName description visibility
       (if strict_equal visibility "private" then true else false)) ;;
  ret (Some "Git repository updated successfully!").

Definition updateRepository_func (params : UpdateParams.t) : M string :=
  returned <-
    try_catch (updateRepository_try params)
      (fun error => console_error "ERROR: " error ;; ret None) ;;
  match returned with
  | Some text => ret text
  | None => ret "Not able to update the repository"
  end.

End Tools.

Definition createGitRepository : StructuredTool :=
  tool createGitRepository_func
    "create-git-respository"
    "Call the tool to create a new git repository"
    CreateParams.schema.

Definition deleteRepository : StructuredTool :=
  tool deleteRepository_func
    "delete-git-respository"
    "Call the tool to delete a created git repository"
    RepoParams.schema.

Definition getRepository : StructuredTool :=
  tool getRepository_func
    "get-repository-details"
    "Call to get more details of the created repository"
    RepoParams.schema.

Definition gitPush : StructuredTool :=
  tool gitPush_func
    "git-push-files"
    "Call to push files to the provided repo url"
    PushParams.schema.

Definition gitCloneRepository : StructuredTool :=
  tool gitCloneRepository_func
    "clone-git-repository"
    "Call to clone remote repo into local"
    RepoParams.schema.

Definition getCommitsByRepoName : StructuredTool :=
  tool getCommitsByRepoName_func
    "get-git-commits-by-repo-name"
    "Call to fetch all the git commits for a provided repo name"
    RepoParams.schema.

Definition createOrUpdateGitFile : StructuredTool :=
  tool createOrUpdateGitFile_func
    "create-or-update-file"
    "Call to create or update file in the git repo"
    FileParams.schema.

Definition updateRepository : StructuredTool :=
  tool updateRepository_func
    "Update-git-repository"
    "Call to update an exisiting git repository"
    UpdateParams.schema.

(* ===================================================================== *)
(** ** [src/index.js] *)
(* ===================================================================== *)

Definition tools : list StructuredTool :=
  [ createGitRepository;
    deleteRepository;
    getRepository;
    gitPush;
    gitCloneRepository;
    getCommitsByRepoName;
    createOrUpdateGitFile;
    updateRepository ].

(** The graph state of [MessagesAnnotation]: the message list. *)
Record State : Type := { messages : list Message }.

(** Assistant node.  [llm] is the chat model with the tools bound. *)
Definition callModel (w : World) (state : State) : M (list Message) :=
  response <- ([LlmInvoke (messages state)], llm_invoke w (messages state)) ;;
  ret [AI response].

(** [lastMessage.tool_calls.length] is read on whatever the last message is:
    only an assistant message has [tool_calls], and an empty list has no last
    message. *)
Definition shouldContinue (state : State) : result string :=
  let lastMessage :=
    nth_error (messages state) (length (messages state) - 1) in
  match lastMessage with
  | Some (AI response) =>
      if Nat.eqb (length (tool_calls response)) 0
      then Ok "__end__"
      else Ok "tools"
  | Some _ =>
      Thrown (TypeError "Cannot read properties of undefined (reading 'length')")
  | None =>
      Thrown (TypeError "Cannot read properties of undefined (reading 'tool_calls')")
  end.

(** Modelled from the spec: the Action Executor ([ToolNode] of the LangGraph
    library, which is not part of the repository).  One request is resolved
    by name in the registry, its arguments are validated, the execution
    function is run, and whatever happens becomes one textual result that
    quotes the request's id: an unknown name, rejected arguments and a fault
    of the execution function all become a failure text, never a fault of
    the executor. *)
Definition execute (registry : list StructuredTool) (w : World)
    (request : ToolCall) : M Message :=
  let answer text :=
    ToolMessage text (call_name request) (call_id request) in
  match find (fun t => String.eqb (tool_name t) (call_name request)) registry with
  | None =>
      ret (answer ("Error: unknown action " ++ call_name request))
  | Some action =>
      match invoke action w (call_args request) with
      | None =>
          ret (answer ("Error: invalid arguments for " ++ call_name request))
      | Some (effects, Ok text) => (effects, Ok (answer text))
      | Some (effects, Thrown e) =>
          (effects, Ok (answer ("Error: " ++ fault_message e)))
      end
  end.

(** Modelled from the spec: the tool node executes all requests of the last
    assistant message and yields one result per request, in the order of the
    requests.  (The requests may run concurrently; the trace lists their
    effects request by request.) *)
Definition ToolNode (registry : list StructuredTool) (w : World)
    (state : State) : M (list Message) :=
  match nth_error (messages state) (length (messages state) - 1) with
  | Some (AI response) => array_map (execute registry w) (tool_calls response)
  | _ => throw (TypeError "ToolNode only accepts AIMessages as input.")
  end.

Definition toolNode : World -> State -> M (list Message) := ToolNode tools.

(** The graph builder. *)
Definition START : string := "__start__".
Definition END : string := "__end__".

Record StateGraph : Type := {
  nodes : list (string * (World -> State -> M (list Message)));
  edges : list (string * string);
  conditionalEdges :
    list (string * ((State -> result string) * list (string * string)))
}.

Definition new_StateGraph : StateGraph :=
  {| nodes := []; edges := []; conditionalEdges := [] |}.

Definition addNode (name : string) (action : World -> State -> M (list Message))
    (g : StateGraph) : StateGraph :=
  {| nodes := (nodes g ++ [(name, action)])%list;
     edges := edges g;
     conditionalEdges := conditionalEdges g |}.

Definition addEdge (source target : string) (g : StateGraph) : StateGraph :=
  {| nodes := nodes g;
     edges := (edges g ++ [(source, target)])%list;
     conditionalEdges := conditionalEdges g |}.

Definition addConditionalEdges (source : string)
    (path : State -> result string) (pathMap : list (string * string))
    (g : StateGraph) : StateGraph :=
  {| nodes := nodes g;
     edges := edges g;
     conditionalEdges :=
       (conditionalEdges g ++ [(source, (path, pathMap))])%list |}.

Definition graph : StateGraph :=
  addConditionalEdges "assistant" shouldContinue
    [("__end__", END); ("tools", "tools")]
    (addEdge "tools" "assistant"
       (addEdge "__start__" "assistant"
          (addNode "tools" toolNode
             (addNode "assistant" callModel new_StateGraph)))).

Fixpoint assoc {A : Type} (key : string) (l : list (string * A)) : option A :=
  match l with
  | [] => None
  | (k, v) :: rest => if String.eqb k key then Some v else assoc key rest
  end.

(** Where the run goes after [node]: through the node's conditional edge
    when it has one, else along its plain edge. *)
Definition next (g : StateGraph) (node : string) (state : State)
  : result string :=
  match assoc node (conditionalEdges g) with
  | Some (path, pathMap) =>
      match path state with
      | Ok key =>
          match assoc key pathMap with
          | Some target => Ok target
          | None => Thrown (TypeError ("Branch did not return a valid destination: " ++ key))
          end
      | Thrown e => Thrown e
      end
  | None =>
      match assoc node (edges g) with
      | Some target => Ok target
      | None => Ok END
      end
  end.

(** How a run of the graph ends.  [OutOfFuel]: the step budget ran out
    while the run was still going, about to enter [node]; no final answer
    was produced. *)
Inductive Turn : Type :=
| Done (history : list Message)
| Failed (error : Fault) (history : list Message)
| OutOfFuel (node : string) (history : list Message).

Definition history_of (t : Turn) : list Message :=
  match t with
  | Done h | Failed _ h | OutOfFuel _ h => h
  end.

(** Modelled from the spec: the orchestration loop (the compiled graph of
    the LangGraph library, which is not part of the repository).  A node's
    messages are appended to the history; the run then follows the node's
    edge; it is over at [END].  A fault of a node ends the turn and leaves
    the history as it was before that node ran.  [fuel] is the number of
    nodes the run may enter; the source sets no such number. *)
Fixpoint run (g : StateGraph) (w : World) (fuel : nat) (node : string)
    (history : list Message) : list Event * Turn :=
  if String.eqb node END then ([], Done history)
  else
    match fuel with
    | O => ([], OutOfFuel node history)
    | S fuel' =>
        let step :=
          match assoc node (nodes g) with
          | Some action => action w {| messages := history |}
          | None => ret []
          end in
        match step with
        | (effects, Thrown e) => (effects, Failed e history)
        | (effects, Ok update) =>
            let history' := (history ++ update)%list in
            match next g node {| messages := history' |} with
            | Thrown e => (effects, Failed e history')
            | Ok target =>
                let (effects', turn) := run g w fuel' target history' in
                ((effects ++ effects')%list, turn)
            end
        end
    end.

(** Modelled from the spec: the Conversation State Store ([MemorySaver]):
    one ordered history per thread id, empty until the first turn. *)
Definition MemorySaver : Type := string -> list Message.

Definition memory : MemorySaver := fun _ => [].

Definition save (store : MemorySaver) (thread_id : string)
    (history : list Message) : MemorySaver :=
  fun id => if String.eqb id thread_id then history else store id.

(** The second argument of [agent.invoke]: [{ configurable: { thread_id } }].
    The call site passes nothing else. *)
Record Config : Type := { thread_id : string }.

(** Modelled from the spec: [agent.invoke(input, config)].  The input
    messages are appended to the stored history of the thread, the graph is
    run from [START], and the history the run ends with is stored. *)
Definition agent_invoke (w : World) (fuel : nat) (store : MemorySaver)
    (input : list Message) (config : Config)
  : list Event * (Turn * MemorySaver) :=
  let history := (store (thread_id config) ++ input)%list in
  let (effects, turn) := run graph w fuel START history in
  (effects, (turn, save store (thread_id config) (history_of turn))).

(** The messages [main] passes for one line typed by the user. *)
Definition turn_input (query : string) : list Message :=
  [ System "You are a smart github personal assistant to create and manage github repositories.";
    Human query ].

Definition last_content (history : list Message) : string :=
  match nth_error history (length history - 1) with
  | Some m => content m
  | None => ""
  end.

(** How [main] ends on the lines typed so far. *)
Inductive Session : Type :=
| Closed                         (* the user typed bye *)
| Rejected (error : Fault)       (* [agent.invoke] threw; [main] has no handler *)
| Waiting                        (* no more input yet *)
| Running (node : string).       (* the turn was still going *)

Fixpoint main (w : World) (fuel : nat) (lines : list string)
    (store : MemorySaver) : list Event * (Session * MemorySaver) :=
  match lines with
  | [] => ([], (Waiting, store))
  | query :: rest =>
      if String.eqb query "bye" then ([], (Closed, store))
      else
        match agent_invoke w fuel store (turn_input query)
                {| thread_id := "1" |} with
        | (effects, (Done history, store')) =>
            let (effects', r) := main w fuel rest store' in
            ((effects ++ [ConsoleLog "AI: " (last_content history)]
                ++ effects')%list, r)
        | (effects, (Failed e _, store')) => (effects, (Rejected e, store'))
        | (effects, (OutOfFuel node _, store')) =>
            (effects, (Running node, store'))
        end
  end.

(* ===================================================================== *)
(** ** Vocabulary of the properties *)
(* ===================================================================== *)

(** The text each execution function returns after its [catch] block, by
    tool name. *)
Definition failure_text (name : string) : string :=
  if String.eqb name "create-git-respository"
  then "Not able to create git repository, try again later"
  else if String.eqb name "delete-git-respository"
  then "Not able to delete the repository"
  else if String.eqb name "get-repository-details"
  then "Not able to fetch more details of the repository"
  else if String.eqb name "git-push-files"
  then "❌ Git push operation failed"
  else if String.eqb name "clone-git-repository"
  then "repo cloning is failed"
  else if String.eqb name "get-git-commits-by-repo-name"
  then "Not able to fetch commit details"
  else if String.eqb name "create-or-update-file"
  then "Neither file created or updated"
  else if String.eqb name "Update-git-repository"
  then "Not able to update the repository"
  else "".

(** The shape shared by the eight execution functions. *)
Definition guarded (body : M (option string)) (fallback : string) : M string :=
  returned <-
    try_catch body (fun error => console_error "ERROR: " error ;; ret None) ;;
  match returned with
  | Some text => ret text
  | None => ret fallback
  end.

(** A computation that writes nothing with [console.error]. *)
Definition is_console_error (e : Event) : bool :=
  match e with
  | ConsoleError _ _ => true
  | _ => false
  end.

Definition quiet {A : Type} (m : M A) : Prop :=
  forall e, In e (trace m) -> is_console_error e = false.

(** The git commands of a trace, with the handle they ran on. *)
Fixpoint git_commands (t : list Event) : list (option string * GitCmd) :=
  match t with
  | [] => []
  | Git dir cmd :: rest => (dir, cmd) :: git_commands rest
  | _ :: rest => git_commands rest
  end.

(** The requests sent to the GitHub API in a trace. *)
Fixpoint api_requests (t : list Event) : list ApiRequest :=
  match t with
  | [] => []
  | Octokit req :: rest => req :: api_requests rest
  | _ :: rest => api_requests rest
  end.

(** [Object.keys] of a serialized value. *)
Definition keys (j : JS.JSON) : list string :=
  match j with
  | JS.JObject fields => map fst fields
  | _ => []
  end.

(** An action result that answers the request [c]. *)
Definition answers (c : ToolCall) (m : Message) : Prop :=
  exists text, m = ToolMessage text (call_name c) (call_id c).

Definition prepend {A : Type} (effects : list Event) (r : list Event * A)
  : list Event * A :=
  ((effects ++ fst r)%list, snd r).

(** The entry [getCommitsByRepoName] serializes for the commit [c]. *)
Definition commit_entry (c : Commit) (entry : JS.JSON) : Prop :=
  exists who,
    committer (commit c) = Some who /\
    entry = JS.JObject
              [ ("commitId", JS.JString (node_id c));
                ("sha", JS.JString (sha c));
                ("message", JS.JString (commit_message (commit c)));
                ("committerName", JS.JString (user_name who));
                ("date", JS.JString (user_date who)) ].

(** The local path and the remote URL [gitPush] works with. *)
Definition projectPath (w : World) (params : PushParams.t) : string :=
  path_join w (dirname w) ("../" ++ PushParams.projectName params).

Definition authedUrl (w : World) (data : Repo) : string :=
  JS.replace "https://" ("https://" ++ token_text w ++ "@") (repo_html_url data).

Definition is_pull (cmd : GitCmd) : bool :=
  match cmd with
  | GitPull _ _ _ => true
  | _ => false
  end.

(** The steps of the push operation, as the claim lists them: initialize,
    stage all files, commit, check out [main] (creating it when the local
    branches do not include it), replace or set the remote [origin], pull
    with rebase, push with upstream tracking. *)
Definition push_steps (w : World) (params : PushParams.t) (data : Repo)
  : list GitCmd :=
  let handle := Some (projectPath w params) in
  ([ GitInit;
     GitAdd "./*";
     GitCommit (PushParams.commitMessage params);
     GitBranchLocal;
     (if existsb (String.eqb "main") (git_branches w handle)
      then GitCheckout "main"
      else GitCheckoutLocalBranch "main");
     GitGetRemotes true ]
   ++ (if existsb (fun r => String.eqb (remote_name r) "origin")
            (git_remotes w handle)
       then [GitRemoveRemote "origin"]
       else [])
   ++ [ GitAddRemote "origin" (authedUrl w data);
        GitPull "origin" "main" [("--rebase", "true")];
        GitPush ["-u"; "origin"; "main"] ])%list.

(** The account and the repository an API request is about. *)
Definition request_target (req : ApiRequest) : option (string * string) :=
  match req with
  | ReposGet owner repo
  | ReposDelete owner repo
  | ReposListCommits owner repo _ _
  | ReposCreateOrUpdateFileContents owner repo _ _ _
  | ReposUpdate owner repo _ _ _ => Some (owner, repo)
  | UsersGetAuthenticated
  | PostUserRepos _ _ _ _ _ _ => None
  end.

(** The messages the loop itself appends: assistant messages and action
    results. *)
Definition appended_by_loop (m : Message) : bool :=
  match m with
  | AI _ | ToolMessage _ _ _ => true
  | System _ | Human _ => false
  end.

Definition is_system (m : Message) : bool :=
  match m with
  | System _ => true
  | _ => false
  end.

(** A final answer: an assistant message that requests no action. *)
Definition final_answer (m : Message) : Prop :=
  exists response, m = AI response /\ tool_calls response = [].

(** A run whose repository requests all concern the repository [repo] of
    the authenticated account. *)
Definition scoped (w : World) (repo : string) (m : M string) : Prop :=
  forall req o r,
    In req (api_requests (trace m)) ->
    request_target req = Some (o, r) ->
    r = repo /\
    exists owner,
      users_getAuthenticated w UsersGetAuthenticated = Ok owner /\
      o = login owner.

(** What every turn of the loop keeps, started on the history [h]: the
    history it ends with is [h] followed by messages of the loop's own; a
    finished turn ends on a final answer; an aborted turn stops on the history
    whose engine call failed. *)
Definition turn_invariant (w : World) (h : list Message) (turn : Turn)
  : Prop :=
  exists suffix,
    history_of turn = (h ++ suffix)%list /\
    forallb appended_by_loop suffix = true /\
    match turn with
    | Done _ => exists mid m, suffix = (mid ++ [m])%list /\ final_answer m
    | Failed e h' => llm_invoke w h' = Thrown e
    | OutOfFuel _ _ => True
    end.

(** Whether a text holds a dollar sign, the character that starts a
    replacement pattern. *)
Fixpoint has_dollar (s : string) : bool :=
  match s with
  | EmptyString => false
  | String c rest => Ascii.eqb c "$"%char || has_dollar rest
  end.

(** The [try] block each registered tool runs on an argument object, by
    tool name; [None] when the tool's schema rejects the arguments. *)
Definition try_block (name : string) (w : World) (args : Zod.Args)
  : option (M (option string)) :=
  if String.eqb name "create-git-respository"
  then option_map (createGitRepository_try w) (CreateParams.schema args)
  else if String.eqb name "delete-git-respository"
  then option_map (deleteRepository_try w) (RepoParams.schema args)
  else if String.eqb name "get-repository-details"
  then option_map (getRepository_try w) (RepoParams.schema args)
  else if String.eqb name "git-push-files"
  then option_map (gitPush_try w) (PushParams.schema args)
  else if String.eqb name "clone-git-repository"
  then option_map (gitCloneRepository_try w) (RepoParams.schema args)
  else if String.eqb name "get-git-commits-by-repo-name"
  then option_map (getCommitsByRepoName_try w) (RepoParams.schema args)
  else if String.eqb name "create-or-update-file"
  then option_map (createOrUpdateGitFile_try w) (FileParams.schema args)
  else if String.eqb name "Update-git-repository"
  then option_map (updateRepository_try w) (UpdateParams.schema args)
  else None.

Definition fault_of {A : Type} (r : result A) : option Fault :=
  match r with
  | Ok _ => None
  | Thrown e => Some e
  end.

(** The fault a collaborator raises on a call of the trace, if any.  The
    pull is left out: its fault is caught where it is made. *)
Definition event_fault (w : World) (ev : Event) : option Fault :=
  match ev with
  | Octokit req =>
      match req with
      | UsersGetAuthenticated => fault_of (users_getAuthenticated w req)
      | ReposGet _ _ => fault_of (repos_get w req)
      | PostUserRepos _ _ _ _ _ _ => fault_of (post_user_repos w req)
      | ReposDelete _ _ => fault_of (repos_delete w req)
      | ReposListCommits _ _ _ _ => fault_of (repos_listCommits w req)
      | ReposCreateOrUpdateFileContents _ _ _ _ _ =>
          fault_of (repos_createOrUpdateFileContents w req)
      | ReposUpdate _ _ _ _ _ => fault_of (repos_update w req)
      end
  | Git dir cmd => if is_pull cmd then None else git_fault w dir cmd
  | ConsoleError _ _ | ConsoleWarn _ _ | ConsoleLog _ _ | LlmInvoke _ => None
  end.

(** Complete rounds of actions: an assistant message with at least one
    request, followed by exactly the results of its requests, in the order of
    the requests; then the next round. *)
Inductive rounds : list Message -> Prop :=
| rounds_nil : rounds []
| rounds_cons (r : AIMessage) (results rest : list Message) :
    tool_calls r <> [] ->
    Forall2 answers (tool_calls r) results ->
    rounds rest ->
    rounds (AI r :: results ++ rest).

(** What a turn started on the history [h] has appended when it ends.  A
    finished turn: complete rounds, then the final answer.  An aborted turn:
    complete rounds.  A turn stopped by the step budget: complete rounds,
    followed, when it was stopped on its way to the tool node, by one
    assistant message whose requests are still unanswered. *)
Definition turn_pairing (h : list Message) (turn : Turn) : Prop :=
  match turn with
  | Done h' =>
      exists complete final,
        h' = (h ++ complete ++ [AI final])%list /\
        rounds complete /\ tool_calls final = []
  | Failed _ h' =>
      exists complete, h' = (h ++ complete)%list /\ rounds complete
  | OutOfFuel node h' =>
      (node = "tools" /\
       exists complete pending,
         h' = (h ++ complete ++ [AI pending])%list /\
         rounds complete /\ tool_calls pending <> []) \/
      (node <> "tools" /\
       exists complete, h' = (h ++ complete)%list /\ rounds complete)
  end.

(** The requests and the results a history holds. *)
Fixpoint requests_in (h : list Message) : list string :=
  match h with
  | [] => []
  | AI r :: rest => (map call_id (tool_calls r) ++ requests_in rest)%list
  | _ :: rest => requests_in rest
  end.

Fixpoint results_in (h : list Message) : list string :=
  match h with
  | [] => []
  | ToolMessage _ _ id :: rest => id :: results_in rest
  | _ :: rest => results_in rest
  end.

(** *** Sample collaborators *)

Definition octo : Owner :=
  {| login := "octo";
     avatar_url := "https://avatars.githubusercontent.com/u/1";
     user_view_type := "public" |}.

Definition demo : Repo :=
  {| repo_id := 42;
     repo_name := "demo";
     repo_description := Some "test";
     repo_owner := octo;
     repo_private := false;
     repo_html_url := "https://github.com/octo/demo";
     repo_created_at := "2024-01-01T00:00:00Z";
     repo_clone_url := "https://github.com/octo/demo.git" |}.

Definition first_commit : Commit :=
  {| node_id := "C_1";
     sha := "a1b2c3";
     commit :=
       {| commit_message := "initial commit";
          committer :=
            Some {| user_name := "Octo Cat";
                    user_date := "2024-01-02T00:00:00Z" |} |} |}.

(** A GitHub account that answers every request, with a project whose
    local repository has no [main] branch yet, an [origin] remote already
    set, and an empty remote repository (so the pull fails). *)
Definition demo_world (engine : list Message -> result AIMessage) : World :=
  {| GITHUB_ACCESS_TOKEN := Some "TOKEN";
     dirname := "/app/src";
     path_join := fun a b => a ++ "/" ++ b;
     users_getAuthenticated := fun _ => Ok octo;
     repos_get := fun _ => Ok demo;
     post_user_repos := fun _ => Ok demo;
     repos_delete := fun _ => Ok (Some 204%Z);
     repos_listCommits := fun _ => Ok [first_commit];
     repos_createOrUpdateFileContents :=
       fun _ => Ok "https://api.github.com/repos/octo/demo/contents/notes.md";
     repos_update := fun _ => Ok tt;
     simpleGit_fault := fun _ => None;
     git_fault :=
       fun _ cmd =>
         match cmd with
         | GitPull _ _ _ => Some (GitError "couldn't find remote ref main")
         | _ => None
         end;
     git_branches := fun _ => ["master"];
     git_remotes :=
       fun _ => [ {| remote_name := "origin";
                     remote_fetch := "https://github.com/octo/old";
                     remote_push := "https://github.com/octo/old" |} ];
     llm_invoke := engine |}.

(** The same account with an expired token: every API request is
    rejected. *)
Definition offline_world (engine : list Message -> result AIMessage) : World :=
  let rejected {A : Type} : ApiRequest -> result A :=
    fun _ => Thrown (RequestError 401 "Bad credentials") in
  {| GITHUB_ACCESS_TOKEN := None;
     dirname := "/app/src";
     path_join := fun a b => a ++ "/" ++ b;
     users_getAuthenticated := rejected;
     repos_get := rejected;
     post_user_repos := rejected;
     repos_delete := rejected;
     repos_listCommits := rejected;
     repos_createOrUpdateFileContents := rejected;
     repos_update := rejected;
     simpleGit_fault := fun _ => None;
     git_fault := fun _ _ => None;
     git_branches := fun _ => [];
     git_remotes := fun _ => [];
     llm_invoke := engine |}.

Definition demo_request : ToolCall :=
  {| call_name := "get-repository-details";
     call_args := [("repoName", JS.JString "demo")];
     call_id := "call_1" |}.

(** An engine that asks for an action whatever it is shown. *)
Definition eager_engine (history : list Message) : result AIMessage :=
  Ok {| ai_content := ""; tool_calls := [demo_request] |}.

(** An engine whose service cannot be reached. *)
Definition down_engine (history : list Message) : result AIMessage :=
  Thrown (EngineError "fetch failed").

(** An engine that asks for one more action whatever it is shown, each
    request under an id of its own. *)
Definition asking_engine (history : list Message) : result AIMessage :=
  Ok {| ai_content := "";
        tool_calls :=
          [ {| call_name := "get-repository-details";
               call_args := [("repoName", JS.JString "demo")];
               call_id :=
                 "call_" ++ NilZero.string_of_uint
                              (Nat.to_uint (length history)) |} ] |}.

(* ===================================================================== *)
(** ** Laws of the effect monad *)
(* ===================================================================== *)

Lemma quiet_ret {A : Type} (a : A) : quiet (ret a).
Proof. intros e []. Qed.

Lemma quiet_throw {A : Type} (e : Fault) : quiet (@throw A e).
Proof. intros x []. Qed.

Lemma quiet_octokit {A : Type} (answer : ApiRequest -> result A)
    (req : ApiRequest) : quiet (octokit answer req).
Proof. intros e [<- | []]. reflexivity. Qed.

Lemma quiet_git (w : World) (dir : option string) (cmd : GitCmd) :
  quiet (git w dir cmd).
Proof. intros e [<- | []]. reflexivity. Qed.

Lemma quiet_simpleGit (w : World) (dir : option string) :
  quiet (simpleGit w dir).
Proof. intros e []. Qed.

Lemma quiet_console_warn (label detail : string) :
  quiet (console_warn label detail).
Proof. intros e [<- | []]. reflexivity. Qed.

Lemma quiet_bind {A B : Type} (m : M A) (k : A -> M B) :
  quiet m -> (forall a, quiet (k a)) -> quiet (bind m k).
Proof.
  intros Hm Hk e. unfold bind, trace.
  destruct m as [t [a | err]]; simpl.
  - specialize (Hk a). destruct (k a) as [t' r] eqn:Ek; simpl.
    intros Hin. apply in_app_or in Hin as [Hin | Hin].
    + apply Hm. exact Hin.
    + apply Hk. exact Hin.
  - intros Hin. apply Hm. exact Hin.
Qed.

Lemma quiet_try_catch {A : Type} (m : M A) (handler : Fault -> M A) :
  quiet m -> (forall e, quiet (handler e)) -> quiet (try_catch m handler).
Proof.
  intros Hm Hh e. unfold try_catch, trace.
  destruct m as [t [a | err]]; simpl.
  - intros Hin. apply Hm. exact Hin.
  - specialize (Hh err). destruct (handler err) as [t' r] eqn:Eh; simpl.
    intros Hin. apply in_app_or in Hin as [Hin | Hin].
    + apply Hm. exact Hin.
    + apply Hh. exact Hin.
Qed.

Lemma quiet_if {A : Type} (b : bool) (m1 m2 : M A) :
  quiet m1 -> quiet m2 -> quiet (if b then m1 else m2).
Proof. destruct b; auto. Qed.

Lemma quiet_array_map {A B : Type} (f : A -> M B) (l : list A) :
  (forall a, quiet (f a)) -> quiet (array_map f l).
Proof.
  intros Hf. induction l as [| x l IH]; simpl.
  - apply quiet_ret.
  - apply quiet_bind; [apply Hf |]. intros y.
    apply quiet_bind; [exact IH |]. intros ys. apply quiet_ret.
Qed.

Ltac quiet_steps :=
  repeat first
    [ apply quiet_ret | apply quiet_throw | apply quiet_octokit
    | apply quiet_git | apply quiet_simpleGit | apply quiet_console_warn
    | apply quiet_bind; [| intros ?]
    | apply quiet_try_catch; [| intros ?]
    | apply quiet_if
    | apply quiet_array_map; intros ?
    | match goal with
      | |- quiet (match ?x with _ => _ end) => destruct x
      end ].

(** The guarded shape always returns a text. *)
Lemma guarded_returns (body : M (option string)) (fallback : string) :
  exists text, outcome (guarded body fallback) = Ok text.
Proof.
  destruct body as [t [[text |] | e]]; simpl; eauto.
Qed.

(** When the [catch] block of the guarded shape ran, the fixed text is
    returned. *)
Lemma guarded_caught (body : M (option string)) (fallback : string)
    (label : string) (e : Fault) :
  quiet body ->
  In (ConsoleError label e) (trace (guarded body fallback)) ->
  outcome (guarded body fallback) = Ok fallback.
Proof.
  intros Hq. destruct body as [t [[text |] | err]]; simpl.
  - rewrite app_nil_r. intros Hin. apply Hq in Hin. discriminate.
  - reflexivity.
  - reflexivity.
Qed.

(** A body that throws makes the guarded shape log the fault and return the
    fixed text. *)
Lemma guarded_thrown (body : M (option string)) (fallback : string)
    (e : Fault) :
  outcome body = Thrown e ->
  outcome (guarded body fallback) = Ok fallback /\
  In (ConsoleError "ERROR: " e) (trace (guarded body fallback)).
Proof.
  destruct body as [t [a | err]]; simpl; intros H; [discriminate |].
  injection H as ->. split; [reflexivity |].
  rewrite app_nil_r. apply in_or_app. right. left. reflexivity.
Qed.

(* ===================================================================== *)
(** ** The execution functions never throw *)
(* ===================================================================== *)

Lemma quiet_commitEntry (c : Commit) : quiet (commitEntry c).
Proof. unfold commitEntry. quiet_steps. Qed.

(** Case analysis on the next answer of a collaborator. *)
Ltac case_world w :=
  match goal with
  | |- context [users_getAuthenticated w ?r] =>
      destruct (users_getAuthenticated w r) eqn:?
  | |- context [repos_get w ?r] => destruct (repos_get w r) eqn:?
  | |- context [post_user_repos w ?r] => destruct (post_user_repos w r) eqn:?
  | |- context [repos_delete w ?r] =>
      destruct (repos_delete w r) as [[status |] |] eqn:?;
      [destruct (Z.eqb status 204) eqn:? | |]
  | |- context [repos_listCommits w ?r] =>
      destruct (repos_listCommits w r) eqn:?
  | |- context [repos_createOrUpdateFileContents w ?r] =>
      destruct (repos_createOrUpdateFileContents w r) eqn:?
  | |- context [repos_update w ?r] => destruct (repos_update w r) eqn:?
  | |- context [simpleGit_fault w ?d] => destruct (simpleGit_fault w d) eqn:?
  | |- context [match git_fault w ?d ?c with _ => _ end] =>
      destruct (git_fault w d c) eqn:?
  end.

Ltac run_world w :=
  cbn [bind try_catch ret app console_warn console_error emit];
  repeat (case_world w;
          cbn [bind try_catch ret app console_warn console_error emit]).

Lemma commitEntry_no_effects (commits : list Commit) :
  trace (array_map commitEntry commits) = [].
Proof.
  induction commits as [| c commits IH]; [reflexivity |].
  simpl. unfold commitEntry at 1.
  destruct (committer (commit c)); [| reflexivity]. simpl.
  destruct (array_map commitEntry commits) as [t [entries | e]];
    simpl in IH; subst t; reflexivity.
Qed.

(** The trace of the guarded shape: the trace of the body, then the
    logged fault when the body threw. *)
Lemma guarded_trace (body : M (option string)) (fallback : string) :
  trace (guarded body fallback)
  = (trace body
       ++ match outcome body with
          | Ok _ => []
          | Thrown e => [ConsoleError "ERROR: " e]
          end)%list.
Proof.
  destruct body as [t [[text |] | e]]; simpl; rewrite ?app_nil_r; reflexivity.
Qed.

(** A [try] block throws the fault of the call that was answered with
    one. *)
Ltac throws_leaf :=
  cbn [trace fst outcome snd];
  let ev := fresh "ev" in
  let e := fresh "e" in
  let Hin := fresh "Hin" in
  let Hfault := fresh "Hfault" in
  intros ev e Hin Hfault;
  repeat (destruct Hin as [<- | Hin]); try contradiction;
  cbn [event_fault is_pull fault_of] in Hfault;
  repeat match goal with
    | H : ?x = _ |- _ =>
        tryif constr_eq H Hfault then fail else rewrite H in Hfault
    end;
  cbn [fault_of] in Hfault; try discriminate Hfault;
  injection Hfault as <-; reflexivity.

Lemma createGitRepository_try_throws (w : World) (p : CreateParams.t) :
  forall ev e,
    In ev (trace (createGitRepository_try w p)) ->
    event_fault w ev = Some e ->
    outcome (createGitRepository_try w p) = Thrown e.
Proof.
  unfold createGitRepository_try, octokit. run_world w; throws_leaf.
Qed.

Lemma deleteRepository_try_throws (w : World) (p : RepoParams.t) :
  forall ev e,
    In ev (trace (deleteRepository_try w p)) ->
    event_fault w ev = Some e ->
    outcome (deleteRepository_try w p) = Thrown e.
Proof.
  unfold deleteRepository_try, getOwner, octokit. run_world w; throws_leaf.
Qed.

Lemma getRepository_try_throws (w : World) (p : RepoParams.t) :
  forall ev e,
    In ev (trace (getRepository_try w p)) ->
    event_fault w ev = Some e ->
    outcome (getRepository_try w p) = Thrown e.
Proof.
  unfold getRepository_try, getOwner, getRepoDetails, octokit.
  run_world w; throws_leaf.
Qed.

Lemma gitPush_try_throws (w : World) (p : PushParams.t) :
  forall ev e,
    In ev (trace (gitPush_try w p)) ->
    event_fault w ev = Some e ->
    outcome (gitPush_try w p) = Thrown e.
Proof.
  unfold gitPush_try, getOwner, getRepoDetails, octokit, simpleGit, git.
  cbn [bind try_catch ret app].
  case_world w; cbn [bind try_catch ret app]; [| throws_leaf].
  case_world w; cbn [bind try_catch ret app]; [| throws_leaf].
  case_world w; cbn [bind try_catch ret app]; [throws_leaf |].
  destruct (existsb (String.eqb "main") _);
    destruct (existsb (fun r => String.eqb (remote_name r) "origin") _);
    run_world w; throws_leaf.
Qed.

Lemma gitCloneRepository_try_throws (w : World) (p : RepoParams.t) :
  forall ev e,
    In ev (trace (gitCloneRepository_try w p)) ->
    event_fault w ev = Some e ->
    outcome (gitCloneRepository_try w p) = Thrown e.
Proof.
  unfold gitCloneRepository_try, getOwner, getRepoDetails, octokit,
    simpleGit, git.
  run_world w; throws_leaf.
Qed.

Lemma getCommitsByRepoName_try_throws (w : World) (p : RepoParams.t) :
  forall ev e,
    In ev (trace (getCommitsByRepoName_try w p)) ->
    event_fault w ev = Some e ->
    outcome (getCommitsByRepoName_try w p) = Thrown e.
Proof.
  unfold getCommitsByRepoName_try, getOwner, octokit.
  run_world w; try throws_leaf.
  match goal with
  | |- context [array_map commitEntry ?l] =>
      pose proof (commitEntry_no_effects l) as Hnone;
      destruct (array_map commitEntry l) as [t [entries | e']];
      simpl in Hnone; subst t
  end; cbn [bind try_catch ret app]; throws_leaf.
Qed.

Lemma createOrUpdateGitFile_try_throws (w : World) (p : FileParams.t) :
  forall ev e,
    In ev (trace (createOrUpdateGitFile_try w p)) ->
    event_fault w ev = Some e ->
    outcome (createOrUpdateGitFile_try w p) = Thrown e.
Proof.
  unfold createOrUpdateGitFile_try, getOwner, octokit.
  run_world w; throws_leaf.
Qed.

Lemma updateRepository_try_throws (w : World) (p : UpdateParams.t) :
  forall ev e,
    In ev (trace (updateRepository_try w p)) ->
    event_fault w ev = Some e ->
    outcome (updateRepository_try w p) = Thrown e.
Proof.
  unfold updateRepository_try, getOwner, octokit.
  run_world w; throws_leaf.
Qed.

(** Every registered tool runs its [try] block inside the guarded shape,
    with the failure text listed for its name; the block writes nothing with
    [console.error] and throws the fault of any call answered with one. *)
Lemma registered_tools_try (t : StructuredTool) (w : World)
    (args : Zod.Args) (m : M string) :
  In t tools ->
  invoke t w args = Some m ->
  exists body,
    try_block (tool_name t) w args = Some body /\
    m = guarded body (failure_text (tool_name t)) /\
    quiet body /\
    (forall ev e,
        In ev (trace body) -> event_fault w ev = Some e ->
        outcome body = Thrown e).
Proof.
  intros Hin Hinv. simpl in Hin.
  repeat (destruct Hin as [<- | Hin]); try contradiction;
    cbn [invoke tool createGitRepository deleteRepository getRepository
         gitPush gitCloneRepository getCommitsByRepoName
         createOrUpdateGitFile updateRepository] in Hinv;
    cbn [tool_name tool createGitRepository deleteRepository getRepository
         gitPush gitCloneRepository getCommitsByRepoName
         createOrUpdateGitFile updateRepository];
    unfold try_block; cbn [String.eqb Ascii.eqb Bool.eqb];
    match type of Hinv with
    | option_map _ ?parsed = _ => destruct parsed as [p |]
    end; cbn [option_map] in Hinv |- *; try discriminate;
    injection Hinv as <-;
    eexists; (split; [reflexivity |]); (split; [reflexivity |]); split.
  all: try (unfold createGitRepository_try, deleteRepository_try,
              getRepository_try, gitPush_try, gitCloneRepository_try,
              getCommitsByRepoName_try, createOrUpdateGitFile_try,
              updateRepository_try; quiet_steps; apply quiet_commitEntry).
  - apply createGitRepository_try_throws.
  - apply deleteRepository_try_throws.
  - apply getRepository_try_throws.
  - apply gitPush_try_throws.
  - apply gitCloneRepository_try_throws.
  - apply getCommitsByRepoName_try_throws.
  - apply createOrUpdateGitFile_try_throws.
  - apply updateRepository_try_throws.
Qed.

(* ===================================================================== *)
(** ** The executor and the loop *)
(* ===================================================================== *)

Lemma last_snoc {A : Type} (l : list A) (x : A) :
  nth_error (l ++ [x]) (length (l ++ [x]) - 1) = Some x.
Proof.
  rewrite length_app. simpl.
  replace (length l + 1 - 1) with (length l) by lia.
  rewrite nth_error_app2 by lia.
  replace (length l - length l) with 0 by lia. reflexivity.
Qed.

(** Tool names identify the registered tools. *)
Lemma find_registered (t : StructuredTool) :
  In t tools ->
  find (fun t' => String.eqb (tool_name t') (tool_name t)) tools = Some t.
Proof.
  intros Hin. simpl in Hin.
  repeat (destruct Hin as [<- | Hin]); try contradiction; reflexivity.
Qed.

(** The executor answers every request, whatever the registry and the
    collaborators do. *)
Lemma execute_answers (registry : list StructuredTool) (w : World)
    (request : ToolCall) :
  exists effects text,
    execute registry w request
    = (effects, Ok (ToolMessage text (call_name request) (call_id request))).
Proof.
  unfold execute.
  destruct (find _ registry) as [action |]; [| unfold ret; eauto].
  destruct (invoke action w (call_args request)) as [[effects [text | e]] |];
    unfold ret; eauto.
Qed.

Lemma execute_all_answer (registry : list StructuredTool) (w : World)
    (requests : list ToolCall) :
  exists effects results,
    array_map (execute registry w) requests = (effects, Ok results) /\
    Forall2 answers requests results.
Proof.
  induction requests as [| c requests IH]; simpl.
  - exists [], []. split; [reflexivity | constructor].
  - destruct (execute_answers registry w c) as (e1 & text & ->).
    destruct IH as (e2 & results & -> & Hall). simpl.
    eexists _, _. split; [reflexivity |].
    constructor; [exists text; reflexivity | exact Hall].
Qed.

(** After an assistant message that carries requests the router goes to the
    tool node; after one that carries none it goes to the end. *)
Lemma shouldContinue_after_assistant (history : list Message)
    (response : AIMessage) :
  shouldContinue {| messages := history ++ [AI response] |}
  = Ok (match tool_calls response with
        | [] => "__end__"
        | _ :: _ => "tools"
        end).
Proof.
  unfold shouldContinue. cbn [messages]. rewrite last_snoc.
  destruct (tool_calls response); reflexivity.
Qed.

Lemma next_after_assistant (history : list Message) (response : AIMessage) :
  next graph "assistant" {| messages := history ++ [AI response] |}
  = Ok (match tool_calls response with
        | [] => END
        | _ :: _ => "tools"
        end).
Proof.
  unfold next. cbn [graph assoc addConditionalEdges addEdge addNode
    new_StateGraph conditionalEdges app String.eqb Ascii.eqb Bool.eqb].
  rewrite shouldContinue_after_assistant.
  destruct (tool_calls response); reflexivity.
Qed.

Lemma next_after_tools (state : State) :
  next graph "tools" state = Ok "assistant".
Proof. reflexivity. Qed.

(** One step of the loop at the assistant node, when the engine answers. *)
Lemma run_assistant (w : World) (fuel : nat) (history : list Message)
    (response : AIMessage) :
  llm_invoke w history = Ok response ->
  run graph w (S fuel) "assistant" history
  = prepend [LlmInvoke history]
      (run graph w fuel
         (match tool_calls response with [] => END | _ :: _ => "tools" end)
         (history ++ [AI response])).
Proof.
  intros Hllm.
  change (run graph w (S fuel) "assistant" history) with
    (match callModel w {| messages := history |} with
     | (effects, Thrown e) => (effects, Failed e history)
     | (effects, Ok update) =>
         let history' := (history ++ update)%list in
         match next graph "assistant" {| messages := history' |} with
         | Thrown e => (effects, Failed e history')
         | Ok target =>
             let (effects', turn) := run graph w fuel target history' in
             ((effects ++ effects')%list, turn)
         end
     end).
  unfold callModel. cbn [messages bind ret]. rewrite Hllm. cbn [app].
  cbv zeta. rewrite next_after_assistant.
  destruct (run graph w fuel _ _) as [effects' turn]. reflexivity.
Qed.

(** One step of the loop at the assistant node, when the engine call
    fails. *)
Lemma run_assistant_fault (w : World) (fuel : nat) (history : list Message)
    (e : Fault) :
  llm_invoke w history = Thrown e ->
  run graph w (S fuel) "assistant" history
  = ([LlmInvoke history], Failed e history).
Proof.
  intros Hllm.
  change (run graph w (S fuel) "assistant" history) with
    (match callModel w {| messages := history |} with
     | (effects, Thrown e) => (effects, Failed e history)
     | (effects, Ok update) =>
         let history' := (history ++ update)%list in
         match next graph "assistant" {| messages := history' |} with
         | Thrown e => (effects, Failed e history')
         | Ok target =>
             let (effects', turn) := run graph w fuel target history' in
             ((effects ++ effects')%list, turn)
         end
     end).
  unfold callModel. cbn [messages bind ret]. rewrite Hllm. reflexivity.
Qed.

(** One step of the loop at the tool node, after an assistant message. *)
Lemma run_tools (w : World) (fuel : nat) (history : list Message)
    (response : AIMessage) :
  exists effects results,
    array_map (execute tools w) (tool_calls response) = (effects, Ok results) /\
    Forall2 answers (tool_calls response) results /\
    run graph w (S fuel) "tools" (history ++ [AI response])
    = prepend effects
        (run graph w fuel "assistant" ((history ++ [AI response]) ++ results)).
Proof.
  destruct (execute_all_answer tools w (tool_calls response))
    as (effects & results & Hmap & Hall).
  exists effects, results. split; [exact Hmap |]. split; [exact Hall |].
  change (run graph w (S fuel) "tools" (history ++ [AI response])) with
    (match toolNode w {| messages := history ++ [AI response] |} with
     | (effects, Thrown e) => (effects, Failed e (history ++ [AI response]))
     | (effects, Ok update) =>
         let history' := ((history ++ [AI response]) ++ update)%list in
         match next graph "tools" {| messages := history' |} with
         | Thrown e => (effects, Failed e history')
         | Ok target =>
             let (effects', turn) := run graph w fuel target history' in
             ((effects ++ effects')%list, turn)
         end
     end).
  unfold toolNode, ToolNode. cbn [messages]. rewrite last_snoc, Hmap.
  cbv zeta. rewrite next_after_tools.
  destruct (run graph w fuel _ _) as [effects' turn]. reflexivity.
Qed.

Lemma run_start (w : World) (fuel : nat) (history : list Message) :
  run graph w (S fuel) START history = run graph w fuel "assistant" history.
Proof.
  change (run graph w (S fuel) START history) with
    (let (effects', turn) :=
       run graph w fuel "assistant" (history ++ []) in
     (([] ++ effects')%list, turn)).
  rewrite app_nil_r.
  destruct (run graph w fuel "assistant" history). reflexivity.
Qed.

Lemma run_at_end (w : World) (fuel : nat) (history : list Message) :
  run graph w fuel END history = ([], Done history).
Proof. destruct fuel; reflexivity. Qed.

(** While the engine keeps asking for actions the run alternates between
    the assistant node and the tool node. *)
Lemma run_keeps_going (w : World) :
  (forall history, exists response,
      llm_invoke w history = Ok response /\ tool_calls response <> []) ->
  forall fuel,
    (forall history, exists effects node history',
        run graph w fuel "assistant" history
        = (effects, OutOfFuel node history')) /\
    (forall history response, exists effects node history',
        run graph w fuel "tools" (history ++ [AI response])
        = (effects, OutOfFuel node history')).
Proof.
  intros Heager. induction fuel as [| fuel [IHa IHt]].
  - split; intros; eexists _, _, _; reflexivity.
  - split.
    + intros history.
      destruct (Heager history) as (response & Hllm & Hcalls).
      rewrite (run_assistant w fuel history response Hllm).
      destruct (tool_calls response) as [| c calls]; [contradiction |].
      destruct (IHt history response) as (effects & node & history' & ->).
      eexists _, _, _. reflexivity.
    + intros history response.
      destruct (run_tools w fuel history response)
        as (effects & results & _ & _ & ->).
      destruct (IHa ((history ++ [AI response]) ++ results)%list)
        as (effects' & node & history' & ->).
      eexists _, _, _. reflexivity.
Qed.

Lemma run_never_done (w : World) :
  (forall history, exists response,
      llm_invoke w history = Ok response /\ tool_calls response <> []) ->
  forall fuel input, exists effects node history,
    run graph w fuel START input = (effects, OutOfFuel node history).
Proof.
  intros Heager [| fuel] input.
  - eexists _, _, _. reflexivity.
  - rewrite run_start.
    destruct (run_keeps_going w Heager fuel) as [Ha _]. apply Ha.
Qed.

Lemma eager_engine_keeps_asking (history : list Message) :
  exists response,
    llm_invoke (demo_world eager_engine) history = Ok response /\
    tool_calls response <> [].
Proof. eexists. split; [reflexivity | discriminate]. Qed.

(* ===================================================================== *)
(** ** C1: the loop bound *)
(* ===================================================================== *)

(** C1 (as amended).  The graph wires no bound on the round trips: the
    router sends the run to the tool node whenever the last assistant message
    carries a request and to the end otherwise, and the tool node always leads
    back to the assistant.  So when the engine answers every call with at
    least one action request, the run is still going after any number of
    steps: it never ends by itself and produces no final answer. *)
Theorem loop_has_no_bound (w : World) :
  (forall history, exists response,
      llm_invoke w history = Ok response /\ tool_calls response <> []) ->
  (forall history response,
      next graph "assistant" {| messages := history ++ [AI response] |}
      = Ok (match tool_calls response with [] => END | _ :: _ => "tools" end)) /\
  (forall state, next graph "tools" state = Ok "assistant") /\
  (forall fuel input, exists effects node history,
      run graph w fuel START input = (effects, OutOfFuel node history)).
Proof.
  intros Heager. split; [| split].
  - apply next_after_assistant.
  - apply next_after_tools.
  - apply run_never_done. exact Heager.
Qed.

Lemma loop_has_no_bound_witness :
  exists effects node history,
    run graph (demo_world eager_engine) 25 START (turn_input "show demo")
    = (effects, OutOfFuel node history).
Proof.
  apply (loop_has_no_bound (demo_world eager_engine)
           eager_engine_keeps_asking).
Defined.

(** C1 (as stated) fails: with an engine that always requests an action, no
    bound makes the turn end with a final answer. *)
Lemma loop_bound_counterexample :
  ~ (exists bound effects history,
        run graph (demo_world eager_engine) bound START (turn_input "show demo")
        = (effects, Done history)).
Proof.
  intros (bound & effects & history & Hdone).
  destruct (run_never_done (demo_world eager_engine)
              eager_engine_keeps_asking bound (turn_input "show demo"))
    as (effects' & node & history' & Hgoing).
  rewrite Hgoing in Hdone. discriminate.
Qed.

(* ===================================================================== *)
(** ** C2: no fault escapes an execution function *)
(* ===================================================================== *)

(** C2.  For every registered tool and every behaviour of the collaborators,
    the execution function run on accepted arguments is the tool's [try]
    block inside [try { ... } catch (error) { console.error(...) }] followed
    by the return of the tool's failure text.  It returns a text and never
    throws.  When the [try] block throws, and in particular when any request
    or git command it made (the tolerated pull apart) was answered with a
    fault, that fault is logged and the text is the tool's failure text; and
    whenever a fault was logged the text is that failure text.  The executor
    turns the text into the action result of the request, and the loop goes
    on to the assistant node. *)
Theorem no_fault_escapes_execution (t : StructuredTool) (w : World)
    (args : Zod.Args) (m : M string) :
  In t tools ->
  invoke t w args = Some m ->
  exists body text,
    try_block (tool_name t) w args = Some body /\
    m = guarded body (failure_text (tool_name t)) /\
    outcome m = Ok text /\
    (forall e,
        outcome body = Thrown e ->
        text = failure_text (tool_name t) /\
        In (ConsoleError "ERROR: " e) (trace m)) /\
    (forall ev e,
        In ev (trace m) ->
        event_fault w ev = Some e ->
        text = failure_text (tool_name t) /\
        In (ConsoleError "ERROR: " e) (trace m)) /\
    (forall label e,
        In (ConsoleError label e) (trace m) ->
        text = failure_text (tool_name t)) /\
    (forall id,
        execute tools w
          {| call_name := tool_name t; call_args := args; call_id := id |}
        = (trace m, Ok (ToolMessage text (tool_name t) id))) /\
    (forall state, next graph "tools" state = Ok "assistant").
Proof.
  intros Hin Hinv.
  destruct (registered_tools_try t w args m Hin Hinv)
    as (body & Hblock & Hm & Hquiet & Hthrows).
  destruct (guarded_returns body (failure_text (tool_name t))) as [text Hok].
  exists body, text. rewrite <- Hm in Hok.
  assert (Hcatch : forall e,
             outcome body = Thrown e ->
             text = failure_text (tool_name t) /\
             In (ConsoleError "ERROR: " e) (trace m)).
  { intros e Hthrown.
    destruct (guarded_thrown body (failure_text (tool_name t)) e Hthrown)
      as [Hfail Hlog].
    rewrite <- Hm in Hfail, Hlog. rewrite Hok in Hfail.
    injection Hfail as ->. split; [reflexivity | exact Hlog]. }
  split; [exact Hblock |]. split; [exact Hm |]. split; [exact Hok |].
  split; [exact Hcatch |]. split; [| split; [| split]].
  - intros ev e Hev Hfault. apply Hcatch.
    rewrite Hm, guarded_trace in Hev. apply in_app_or in Hev as [Hev | Hev].
    + exact (Hthrows ev e Hev Hfault).
    + destruct (outcome body) as [v | e']; [contradiction |].
      destruct Hev as [<- | []]. discriminate Hfault.
  - intros label e Hcaught. rewrite Hm in Hcaught.
    pose proof (guarded_caught body _ label e Hquiet Hcaught) as Hfail.
    rewrite <- Hm, Hok in Hfail. injection Hfail as ->. reflexivity.
  - intros id. unfold execute. cbn [call_name call_args call_id].
    rewrite (find_registered t Hin), Hinv.
    destruct m as [effects r]. simpl in Hok. subst r. reflexivity.
  - apply next_after_tools.
Qed.

Lemma no_fault_escapes_execution_witness :
  exists text,
    outcome (gitCloneRepository_func (offline_world down_engine)
               {| RepoParams.repoName := "demo" |}) = Ok text /\
    text = "repo cloning is failed".
Proof.
  destruct (no_fault_escapes_execution gitCloneRepository
              (offline_world down_engine)
              [("repoName", JS.JString "demo")]
              (gitCloneRepository_func (offline_world down_engine)
                 {| RepoParams.repoName := "demo" |}))
    as (body & text & _ & _ & Hok & _ & Hfault & _).
  - simpl. tauto.
  - reflexivity.
  - exists text. split; [exact Hok |].
    apply (Hfault (Octokit UsersGetAuthenticated)
             (RequestError 401 "Bad credentials")).
    + simpl. tauto.
    + reflexivity.
Defined.

(* ===================================================================== *)
(** ** C3: one result per request, in order *)
(* ===================================================================== *)

Lemma prepend_prepend {A : Type} (e1 e2 : list Event) (r : list Event * A) :
  prepend e1 (prepend e2 r) = prepend (e1 ++ e2) r.
Proof. unfold prepend. simpl. rewrite app_assoc. reflexivity. Qed.

(** Entering the assistant node always starts with an engine call on the
    current history. *)
Lemma run_assistant_calls_engine (w : World) (fuel : nat)
    (history : list Message) :
  exists rest turn,
    run graph w (S fuel) "assistant" history
    = (LlmInvoke history :: rest, turn).
Proof.
  destruct (llm_invoke w history) as [response | e] eqn:Hllm.
  - rewrite (run_assistant w fuel history response Hllm).
    unfold prepend. simpl. eauto.
  - rewrite (run_assistant_fault w fuel history e Hllm). eauto.
Qed.

Lemma rounds_snoc (complete : list Message) (r : AIMessage)
    (results : list Message) :
  rounds complete ->
  tool_calls r <> [] ->
  Forall2 answers (tool_calls r) results ->
  rounds (complete ++ AI r :: results).
Proof.
  intros Hcomplete Hcalls Hall.
  induction Hcomplete as [| r' results' rest Hcalls' Hall' _ IH].
  - cbn [app]. rewrite <- (app_nil_r results).
    apply rounds_cons; [exact Hcalls | exact Hall | apply rounds_nil].
  - cbn [app]. rewrite <- app_assoc.
    apply rounds_cons; [exact Hcalls' | exact Hall' | exact IH].
Qed.

(** At both nodes of the loop, for every budget, a run that starts after
    complete rounds ends as [turn_pairing] says. *)
Lemma run_pairs_requests (w : World) (fuel : nat) :
  (forall h complete,
      rounds complete ->
      turn_pairing h (snd (run graph w fuel "assistant" (h ++ complete)))) /\
  (forall h complete r,
      rounds complete ->
      tool_calls r <> [] ->
      turn_pairing h
        (snd (run graph w fuel "tools" ((h ++ complete) ++ [AI r])))).
Proof.
  induction fuel as [| fuel [IHa IHt]].
  - split.
    + intros h complete Hcomplete. right.
      split; [discriminate |]. exists complete. split; [reflexivity | assumption].
    + intros h complete r Hcomplete Hcalls. left.
      split; [reflexivity |]. exists complete, r.
      split; [rewrite app_assoc; reflexivity |]. split; assumption.
  - split.
    + intros h complete Hcomplete.
      destruct (llm_invoke w (h ++ complete)) as [r | e] eqn:Hllm.
      * rewrite (run_assistant w fuel _ r Hllm). cbn [prepend snd].
        destruct (tool_calls r) as [| c calls] eqn:Hcalls.
        -- rewrite run_at_end. cbn [snd turn_pairing].
           exists complete, r.
           split; [rewrite app_assoc; reflexivity |]. split; assumption.
        -- apply IHt; [exact Hcomplete |]. rewrite Hcalls. discriminate.
      * rewrite (run_assistant_fault w fuel _ e Hllm). cbn [snd turn_pairing].
        exists complete. split; [reflexivity | assumption].
    + intros h complete r Hcomplete Hcalls.
      destruct (run_tools w fuel (h ++ complete) r)
        as (effects & results & _ & Hall & ->).
      cbn [prepend snd].
      replace (((h ++ complete) ++ [AI r]) ++ results)%list
        with (h ++ (complete ++ AI r :: results))%list
        by (rewrite <- !app_assoc; reflexivity).
      apply IHa. apply rounds_snoc; assumption.
Qed.

Lemma run_from_start_pairs (w : World) (fuel : nat) (h : list Message) :
  turn_pairing h (snd (run graph w fuel START h)).
Proof.
  destruct fuel as [| fuel].
  - right. split; [discriminate |]. exists []. rewrite app_nil_r.
    split; [reflexivity | apply rounds_nil].
  - rewrite run_start. rewrite <- (app_nil_r h) at 2.
    apply (proj1 (run_pairs_requests w fuel)). apply rounds_nil.
Qed.

(** C3 (as amended).  When the engine answers a call with N >= 1 action
    requests and the turn goes on for two more steps, the loop appends the
    assistant message, runs the tool node, and comes back to the assistant
    node with exactly N action results appended after it, the i-th result
    quoting the name and the id of the i-th request; the next engine call is
    made on that history.  A turn that finishes, or that a failing engine
    call aborts, leaves no request without its results: what it appended is
    complete rounds, and the final answer when it finished.  A turn stopped
    by the step budget leaves the requests of its last assistant message
    unanswered when it was stopped on its way to the tool node, and no
    others. *)
Theorem request_result_pairing (w : World) (history : list Message)
    (response : AIMessage) :
  llm_invoke w history = Ok response ->
  tool_calls response <> [] ->
  (exists effects results,
      Forall2 answers (tool_calls response) results /\
      length results = length (tool_calls response) /\
      (forall fuel,
          run graph w (S (S fuel)) "assistant" history
          = prepend (LlmInvoke history :: effects)
              (run graph w fuel "assistant"
                 (history ++ [AI response] ++ results))) /\
      (forall fuel, exists rest turn,
          run graph w (S (S (S fuel))) "assistant" history
          = (((LlmInvoke history :: effects)
                ++ LlmInvoke (history ++ [AI response] ++ results) :: rest)%list,
             turn))) /\
  (forall fuel start,
      turn_pairing start (snd (run graph w fuel START start))).
Proof.
  intros Hllm Hcalls. split; [| intros fuel start; apply run_from_start_pairs].
  destruct (run_tools w 0 history response)
    as (effects & results & Hmap & Hall & _).
  assert (Hstep : forall fuel,
             run graph w (S (S fuel)) "assistant" history
             = prepend (LlmInvoke history :: effects)
                 (run graph w fuel "assistant"
                    (history ++ [AI response] ++ results))).
  { intros fuel. rewrite (run_assistant w (S fuel) history response Hllm).
    destruct (tool_calls response) as [| c calls] eqn:Ecalls;
      [contradiction |].
    destruct (run_tools w fuel history response)
      as (effects' & results' & Hmap' & _ & ->).
    rewrite Ecalls in Hmap'. rewrite Hmap in Hmap'.
    injection Hmap' as <- <-.
    rewrite prepend_prepend, <- app_assoc. reflexivity. }
  exists effects, results. split; [exact Hall |]. split; [| split].
  - symmetry. exact (Forall2_length Hall).
  - exact Hstep.
  - intros fuel. rewrite Hstep.
    destruct (run_assistant_calls_engine w fuel
                (history ++ [AI response] ++ results)) as (rest & turn & ->).
    exists rest, turn. reflexivity.
Qed.

Lemma request_result_pairing_witness :
  (exists effects results,
      Forall2 answers [demo_request] results /\
      length results = 1 /\
      run graph (demo_world eager_engine) 2 "assistant" (turn_input "show demo")
      = prepend (LlmInvoke (turn_input "show demo") :: effects)
          (run graph (demo_world eager_engine) 0 "assistant"
             (turn_input "show demo"
                ++ [AI {| ai_content := ""; tool_calls := [demo_request] |}]
                ++ results))) /\
  turn_pairing (turn_input "show demo")
    (snd (run graph (demo_world eager_engine) 26 START
            (turn_input "show demo"))).
Proof.
  destruct (request_result_pairing (demo_world eager_engine)
              (turn_input "show demo")
              {| ai_content := ""; tool_calls := [demo_request] |})
    as ((effects & results & Hall & Hlen & Hstep & _) & Hturn).
  - reflexivity.
  - discriminate.
  - split; [| apply Hturn].
    exists effects, results. split; [exact Hall |]. split; [exact Hlen |].
    apply (Hstep 0).
Defined.

(** C3 (as stated) fails: with an engine that asks for one more action at
    every call, a turn stopped after 26 steps (and already one stopped after
    2) stores a history that ends on an assistant message whose request has
    no result: 13 requests and 12 results. *)
Lemma dangling_request_counterexample :
  let stored :=
    snd (snd (agent_invoke (demo_world asking_engine) 26 memory
                (turn_input "show demo") {| thread_id := "1" |})) "1" in
  let early :=
    snd (snd (agent_invoke (demo_world asking_engine) 2 memory
                (turn_input "show demo") {| thread_id := "1" |})) "1" in
  length (requests_in stored) = 13 /\
  length (results_in stored) = 12 /\
  In "call_26" (requests_in stored) /\
  ~ In "call_26" (results_in stored) /\
  requests_in early = ["call_2"] /\
  results_in early = [].
Proof.
  cbv zeta.
  split; [vm_compute; reflexivity |].
  split; [vm_compute; reflexivity |].
  split; [vm_compute; tauto |].
  split; [vm_compute; intuition discriminate |].
  split; vm_compute; reflexivity.
Qed.

(* ===================================================================== *)
(** ** C4: a fault of the engine call *)
(* ===================================================================== *)

Lemma agent_invoke_engine_fault (w : World) (fuel : nat) (store : MemorySaver)
    (input : list Message) (id : string) (e : Fault) :
  llm_invoke w (store id ++ input) = Thrown e ->
  agent_invoke w (S (S fuel)) store input {| thread_id := id |}
  = ([LlmInvoke (store id ++ input)],
     (Failed e (store id ++ input), save store id (store id ++ input))).
Proof.
  intros Hllm. unfold agent_invoke. cbn [thread_id].
  rewrite run_start, (run_assistant_fault w fuel _ e Hllm). reflexivity.
Qed.

(** C4 (as amended).  When the first engine call of a turn fails, the turn
    ends with that fault, which [main] does not handle; the stored history of
    the thread is the history before the turn followed by exactly the two
    messages [main] passes for the turn, the system prompt and the user
    message, so its length grows by two; no assistant or action message is
    appended, and the other threads are untouched. *)
Theorem engine_fault_keeps_turn_input (w : World) (fuel : nat)
    (store : MemorySaver) (query : string) (rest : list string) (e : Fault) :
  llm_invoke w (store "1" ++ turn_input query) = Thrown e ->
  String.eqb query "bye" = false ->
  exists store',
    agent_invoke w (S (S fuel)) store (turn_input query) {| thread_id := "1" |}
    = ([LlmInvoke (store "1" ++ turn_input query)],
       (Failed e (store "1" ++ turn_input query), store')) /\
    main w (S (S fuel)) (query :: rest) store
    = ([LlmInvoke (store "1" ++ turn_input query)], (Rejected e, store')) /\
    store' "1"
    = (store "1"
         ++ [ System "You are a smart github personal assistant to create and manage github repositories.";
              Human query ])%list /\
    length (store' "1") = length (store "1") + 2 /\
    (forall id, String.eqb id "1" = false -> store' id = store id).
Proof.
  intros Hllm Hquery.
  exists (save store "1" (store "1" ++ turn_input query)).
  split; [| split; [| split; [| split]]].
  - apply agent_invoke_engine_fault. exact Hllm.
  - cbn [main]. rewrite Hquery.
    rewrite (agent_invoke_engine_fault w fuel store _ "1" e Hllm).
    reflexivity.
  - reflexivity.
  - unfold save. cbn [String.eqb Ascii.eqb Bool.eqb].
    rewrite length_app. reflexivity.
  - intros id Hid. unfold save. rewrite Hid. reflexivity.
Qed.

Lemma engine_fault_keeps_turn_input_witness :
  exists store',
    main (demo_world down_engine) 2 ["hello"] memory
    = ([LlmInvoke (turn_input "hello")],
       (Rejected (EngineError "fetch failed"), store')) /\
    length (store' "1") = length (memory "1") + 2.
Proof.
  destruct (engine_fault_keeps_turn_input (demo_world down_engine) 0 memory
              "hello" [] (EngineError "fetch failed"))
    as (store' & _ & Hmain & _ & Hlen & _).
  - reflexivity.
  - reflexivity.
  - exists store'. split; [exact Hmain | exact Hlen].
Defined.

(** C4 (as stated) fails: on an empty history, a turn whose engine call
    fails leaves two messages in the history, not one. *)
Lemma engine_fault_counterexample :
  let after :=
    snd (snd (agent_invoke (demo_world down_engine) 2 memory
                (turn_input "hello") {| thread_id := "1" |})) in
  fst (snd (agent_invoke (demo_world down_engine) 2 memory
              (turn_input "hello") {| thread_id := "1" |}))
  = Failed (EngineError "fetch failed")
      [ System "You are a smart github personal assistant to create and manage github repositories.";
        Human "hello" ] /\
  length (after "1") = 2 /\
  length (after "1") <> length (memory "1") + 1.
Proof.
  cbv zeta. split; [reflexivity |]. split; [reflexivity |].
  simpl. discriminate.
Qed.

(* ===================================================================== *)
(** ** C5: list commits *)
(* ===================================================================== *)

Lemma array_map_commitEntry (commits : list Commit) :
  Forall (fun c => committer (commit c) <> None) commits ->
  exists entries,
    array_map commitEntry commits = ([], Ok entries) /\
    Forall2 commit_entry commits entries.
Proof.
  induction 1 as [| c commits Hc _ IH]; simpl.
  - exists []. split; [reflexivity | constructor].
  - destruct IH as (entries & -> & Hall).
    unfold commitEntry. destruct (committer (commit c)) as [who |] eqn:Ewho;
      [| contradiction].
    simpl. eexists. split; [reflexivity |].
    constructor; [| exact Hall]. exists who. split; [exact Ewho | reflexivity].
Qed.

Lemma commit_entry_keys (c : Commit) (entry : JS.JSON) :
  commit_entry c entry ->
  keys entry = ["commitId"; "sha"; "message"; "committerName"; "date"].
Proof. intros (who & _ & ->). reflexivity. Qed.

Lemma commit_entries_keys (commits : list Commit) (entries : list JS.JSON) :
  Forall2 commit_entry commits entries ->
  Forall (fun entry =>
            keys entry = ["commitId"; "sha"; "message"; "committerName"; "date"])
    entries.
Proof.
  induction 1 as [| c entry cs es Hentry _ IH]; constructor.
  - exact (commit_entry_keys c entry Hentry).
  - exact IH.
Qed.

(** C5 (as amended).  The list-commits action reads one input, the
    repository name: two argument objects with the same [repoName] run the
    same way.  It always asks the API for page size 10 and page 1 of that
    repository of the authenticated account, and when every commit of the
    answer has a committer it returns the serialized list of one entry per
    commit, in order, each with exactly the fields commitId, sha, message,
    committerName and date. *)
Theorem list_commits_first_page (w : World) (params : RepoParams.t)
    (owner : Owner) (commits : list Commit) :
  users_getAuthenticated w UsersGetAuthenticated = Ok owner ->
  repos_listCommits w
    (ReposListCommits (login owner) (RepoParams.repoName params) 10 1)
  = Ok commits ->
  Forall (fun c => committer (commit c) <> None) commits ->
  (forall args args',
      Zod.string "repoName" args = Zod.string "repoName" args' ->
      invoke getCommitsByRepoName w args = invoke getCommitsByRepoName w args') /\
  exists entries,
    getCommitsByRepoName_func w params
    = ([ Octokit UsersGetAuthenticated;
         Octokit (ReposListCommits (login owner)
                    (RepoParams.repoName params) 10 1) ],
       Ok (JS.stringify (JS.JArray entries))) /\
    Forall2 commit_entry commits entries /\
    Forall (fun entry =>
              keys entry
              = ["commitId"; "sha"; "message"; "committerName"; "date"])
      entries /\
    length entries = length commits.
Proof.
  intros Howner Hlist Hcommitters. split.
  - intros args args' Hsame.
    unfold getCommitsByRepoName, tool, RepoParams.schema. cbn [invoke].
    rewrite Hsame. reflexivity.
  - destruct (array_map_commitEntry commits Hcommitters)
      as (entries & Hmap & Hall).
    exists entries. split; [| split; [exact Hall | split]].
    + unfold getCommitsByRepoName_func, getCommitsByRepoName_try, getOwner, octokit.
      cbn [bind try_catch ret app]. rewrite Howner.
      cbn [bind try_catch ret app]. rewrite Hlist.
      cbn [bind try_catch ret app]. rewrite Hmap. reflexivity.
    + exact (commit_entries_keys commits entries Hall).
    + symmetry. exact (Forall2_length Hall).
Qed.

Lemma list_commits_first_page_witness :
  exists entries,
    getCommitsByRepoName_func (demo_world down_engine)
      {| RepoParams.repoName := "demo" |}
    = ([ Octokit UsersGetAuthenticated;
         Octokit (ReposListCommits "octo" "demo" 10 1) ],
       Ok (JS.stringify (JS.JArray entries))) /\
    length entries = 1.
Proof.
  destruct (list_commits_first_page (demo_world down_engine)
              {| RepoParams.repoName := "demo" |} octo [first_commit])
    as (_ & entries & Hrun & _ & _ & Hlen).
  - reflexivity.
  - reflexivity.
  - repeat constructor. discriminate.
  - exists entries. split; [exact Hrun | exact Hlen].
Defined.

(** C5 (as stated) fails: a page size of 5 and a page number of 2 sent with
    the request change nothing; page size 10 and page 1 are asked for. *)
Lemma list_commits_counterexample :
  option_map (fun m => api_requests (trace m))
    (invoke getCommitsByRepoName (demo_world down_engine)
       [ ("repoName", JS.JString "demo");
         ("pageSize", JS.JNumber 5);
         ("page", JS.JNumber 2) ])
  = Some [UsersGetAuthenticated; ReposListCommits "octo" "demo" 10 1] /\
  ReposListCommits "octo" "demo" 10 1 <> ReposListCommits "octo" "demo" 5 2.
Proof. split; [reflexivity | discriminate]. Qed.

(* ===================================================================== *)
(** ** C6: create or update a file *)
(* ===================================================================== *)

(** C6 (as amended).  The create-or-update-file action reads two inputs,
    the repository name and the file name: two argument objects with the same
    [repoName] and [fileName] run the same way.  It writes the fixed content
    [Hello from octokit!!] (base64: SGVsbG8gZnJvbSBvY3Rva2l0ISE=) to the path
    given as file name, in that repository of the authenticated account, with
    the fixed commit message [add hello.txt]; on success it returns
    [File added successfully!. ] followed by the serialized object whose only
    field is the url of the response. *)
Theorem create_file_fixed_content (w : World) (params : FileParams.t)
    (owner : Owner) (url : string) :
  users_getAuthenticated w UsersGetAuthenticated = Ok owner ->
  repos_createOrUpdateFileContents w
    (ReposCreateOrUpdateFileContents (login owner) (FileParams.repoName params)
       "add hello.txt" "SGVsbG8gZnJvbSBvY3Rva2l0ISE="
       (FileParams.fileName params))
  = Ok url ->
  (forall args args',
      Zod.string "repoName" args = Zod.string "repoName" args' ->
      Zod.string "fileName" args = Zod.string "fileName" args' ->
      invoke createOrUpdateGitFile w args = invoke createOrUpdateGitFile w args') /\
  createOrUpdateGitFile_func w params
  = ([ Octokit UsersGetAuthenticated;
       Octokit (ReposCreateOrUpdateFileContents (login owner)
                  (FileParams.repoName params)
                  "add hello.txt" "SGVsbG8gZnJvbSBvY3Rva2l0ISE="
                  (FileParams.fileName params)) ],
     Ok ("File added successfully!. "
           ++ JS.stringify (JS.JObject [("url", JS.JString url)]))) /\
  keys (JS.JObject [("url", JS.JString url)]) = ["url"].
Proof.
  intros Howner Hput. split; [| split].
  - intros args args' Hrepo Hfile.
    unfold createOrUpdateGitFile, tool, FileParams.schema. cbn [invoke].
    rewrite Hrepo, Hfile. reflexivity.
  - unfold createOrUpdateGitFile_func, createOrUpdateGitFile_try, getOwner, octokit.
    cbn [bind try_catch ret app]. rewrite Howner.
    cbn [bind try_catch ret app].
    change (JS.to_base64 "Hello from octokit!!")
      with "SGVsbG8gZnJvbSBvY3Rva2l0ISE=".
    rewrite Hput. reflexivity.
  - reflexivity.
Qed.

Lemma create_file_fixed_content_witness :
  createOrUpdateGitFile_func (demo_world down_engine)
    {| FileParams.fileName := "notes.md"; FileParams.repoName := "demo" |}
  = ([ Octokit UsersGetAuthenticated;
       Octokit (ReposCreateOrUpdateFileContents "octo" "demo"
                  "add hello.txt" "SGVsbG8gZnJvbSBvY3Rva2l0ISE=" "notes.md") ],
     Ok ("File added successfully!. "
           ++ JS.stringify
                (JS.JObject
                   [("url",
                     JS.JString
                       "https://api.github.com/repos/octo/demo/contents/notes.md")]))).
Proof.
  apply (create_file_fixed_content (demo_world down_engine)
           {| FileParams.fileName := "notes.md"; FileParams.repoName := "demo" |}
           octo "https://api.github.com/repos/octo/demo/contents/notes.md");
    reflexivity.
Defined.

(** C6 (as stated) fails: a content and a commit message sent with the
    request are not written; the fixed content and message are. *)
Lemma create_file_counterexample :
  option_map (fun m => api_requests (trace m))
    (invoke createOrUpdateGitFile (demo_world down_engine)
       [ ("repoName", JS.JString "demo");
         ("fileName", JS.JString "notes.md");
         ("content", JS.JString "my notes");
         ("commitMessage", JS.JString "add my notes") ])
  = Some [ UsersGetAuthenticated;
           ReposCreateOrUpdateFileContents "octo" "demo"
             "add hello.txt" (JS.to_base64 "Hello from octokit!!") "notes.md" ] /\
  JS.to_base64 "Hello from octokit!!" <> JS.to_base64 "my notes" /\
  "add hello.txt" <> "add my notes".
Proof. split; [reflexivity | split; discriminate]. Qed.

(* ===================================================================== *)
(** ** C7: repository details *)
(* ===================================================================== *)

(** C7 (as amended).  Given a repository name, the get-repository-details
    action asks for that repository of the authenticated account and returns
    the serialized record with exactly the fields id, name, description,
    owner, private, url, createdAt, avatarUrl and userViewType, in that
    order: [private] is the boolean flag of the repository and [userViewType]
    the view type of its owner; there is no field named visibility or
    ownerViewType. *)
Theorem repository_details_fields (w : World) (params : RepoParams.t)
    (owner : Owner) (data : Repo) :
  users_getAuthenticated w UsersGetAuthenticated = Ok owner ->
  repos_get w (ReposGet (login owner) (RepoParams.repoName params)) = Ok data ->
  exists fields,
    getRepository_func w params
    = ([ Octokit UsersGetAuthenticated;
         Octokit (ReposGet (login owner) (RepoParams.repoName params)) ],
       Ok (JS.stringify (JS.JObject fields))) /\
    map fst fields
    = [ "id"; "name"; "description"; "owner"; "private"; "url"; "createdAt";
        "avatarUrl"; "userViewType" ] /\
    map snd fields
    = [ JS.JNumber (repo_id data);
        JS.JString (repo_name data);
        JS.nullable (repo_description data);
        JS.JString (login (repo_owner data));
        JS.JBool (repo_private data);
        JS.JString (repo_html_url data);
        JS.JString (repo_created_at data);
        JS.JString (avatar_url (repo_owner data));
        JS.JString (user_view_type (repo_owner data)) ] /\
    JS.get "visibility" fields = None /\
    JS.get "ownerViewType" fields = None.
Proof.
  intros Howner Hget. eexists. split.
  - unfold getRepository_func, getRepository_try, getOwner, getRepoDetails, octokit.
    cbn [bind try_catch ret app]. rewrite Howner.
    cbn [bind try_catch ret app]. rewrite Hget.
    unfold repoDetails. reflexivity.
  - repeat split.
Qed.

Lemma repository_details_fields_witness :
  exists fields,
    getRepository_func (demo_world down_engine)
      {| RepoParams.repoName := "demo" |}
    = ([Octokit UsersGetAuthenticated; Octokit (ReposGet "octo" "demo")],
       Ok (JS.stringify (JS.JObject fields))) /\
    map fst fields
    = [ "id"; "name"; "description"; "owner"; "private"; "url"; "createdAt";
        "avatarUrl"; "userViewType" ].
Proof.
  destruct (repository_details_fields (demo_world down_engine)
              {| RepoParams.repoName := "demo" |} octo demo)
    as (fields & Hrun & Hkeys & _).
  - reflexivity.
  - reflexivity.
  - exists fields. split; [exact Hrun | exact Hkeys].
Defined.

(** C7 (as stated) fails: for the sample repository the record has the
    fields private and userViewType where the claim lists visibility and
    ownerViewType. *)
Lemma repository_details_counterexample :
  keys (repoDetails demo)
  <> [ "id"; "name"; "description"; "owner"; "visibility"; "url"; "createdAt";
       "avatarUrl"; "ownerViewType" ] /\
  outcome (getRepository_func (demo_world down_engine)
             {| RepoParams.repoName := "demo" |})
  = Ok (JS.stringify (repoDetails demo)).
Proof. split; [discriminate | reflexivity]. Qed.

(* ===================================================================== *)
(** ** C8: the push operation *)
(* ===================================================================== *)

Lemma git_succeeds (w : World) (dir : option string) (cmd : GitCmd) :
  git_fault w dir cmd = None -> git w dir cmd = ([Git dir cmd], Ok tt).
Proof. intros H. unfold git. rewrite H. reflexivity. Qed.

(** A failing pull is caught: one warning, then the push goes on. *)
Lemma pull_tolerated (w : World) (dir : option string)
    (remote branch : string) (options : list (string * string)) :
  exists warnings,
    try_catch (git w dir (GitPull remote branch options))
      (fun pullErr =>
         console_warn "⚠️ Pull failed (probably empty repo):"
           (fault_message pullErr))
    = ((Git dir (GitPull remote branch options) :: warnings)%list, Ok tt) /\
    git_commands warnings = [].
Proof.
  unfold git, try_catch.
  destruct (git_fault w dir (GitPull remote branch options)) as [e |].
  - eexists. split; reflexivity.
  - exists []. split; reflexivity.
Qed.

Lemma git_commands_app (t1 t2 : list Event) :
  git_commands (t1 ++ t2) = (git_commands t1 ++ git_commands t2)%list.
Proof.
  induction t1 as [| e t1 IH]; [reflexivity |].
  destruct e; simpl; rewrite IH; reflexivity.
Qed.

(** When nothing but the pull fails, all the steps run and the push
    reports success. *)
Lemma push_steps_complete (w : World) (params : PushParams.t)
    (owner : Owner) (data : Repo) :
  users_getAuthenticated w UsersGetAuthenticated = Ok owner ->
  repos_get w (ReposGet (login owner) (PushParams.repoName params)) = Ok data ->
  simpleGit_fault w (Some (projectPath w params)) = None ->
  (forall cmd,
      is_pull cmd = false ->
      git_fault w (Some (projectPath w params)) cmd = None) ->
  outcome (gitPush_func w params) = Ok "✅ Files pushed successfully!" /\
  git_commands (trace (gitPush_func w params))
  = map (pair (Some (projectPath w params))) (push_steps w params data).
Proof.
  intros Howner Hget Hhandle Hgit.
  destruct (pull_tolerated w (Some (projectPath w params)) "origin" "main"
              [("--rebase", "true")]) as (warnings & Hpull & Hwarn).
  unfold gitPush_func, gitPush_try, getOwner, getRepoDetails, octokit, simpleGit.
  cbn [bind try_catch ret app]. rewrite Howner.
  cbn [bind try_catch ret app]. rewrite Hget.
  fold (projectPath w params). fold (authedUrl w data).
  rewrite Hhandle. cbn [bind try_catch ret app].
  unfold push_steps.
  destruct (existsb (String.eqb "main") _);
    destruct (existsb (fun r => String.eqb (remote_name r) "origin") _);
    repeat (first [ rewrite git_succeeds by (apply Hgit; reflexivity)
                  | rewrite Hpull ];
            cbn [bind try_catch ret app]);
    (split; [reflexivity |]);
    cbn [trace fst git_commands map app];
    rewrite ?git_commands_app, Hwarn; reflexivity.
Qed.

(** Whatever fails, the git commands issued are an initial part of the
    steps: a step is never skipped or reordered. *)
Lemma push_steps_prefix (w : World) (params : PushParams.t)
    (owner : Owner) (data : Repo) :
  users_getAuthenticated w UsersGetAuthenticated = Ok owner ->
  repos_get w (ReposGet (login owner) (PushParams.repoName params)) = Ok data ->
  exists n,
    git_commands (trace (gitPush_func w params))
    = firstn n (map (pair (Some (projectPath w params)))
                  (push_steps w params data)).
Proof.
  intros Howner Hget.
  unfold gitPush_func, gitPush_try, getOwner, getRepoDetails, octokit, simpleGit.
  cbn [bind try_catch ret app]. rewrite Howner.
  cbn [bind try_catch ret app]. rewrite Hget.
  fold (projectPath w params). fold (authedUrl w data).
  unfold push_steps, git.
  destruct (simpleGit_fault w _); [exists 0; reflexivity |].
  destruct (existsb (String.eqb "main") _);
    destruct (existsb (fun r => String.eqb (remote_name r) "origin") _);
    cbn [bind try_catch ret app];
    repeat (match goal with
            | |- context [match git_fault w ?d ?c with _ => _ end] =>
                destruct (git_fault w d c)
            end; cbn [bind try_catch ret app console_warn console_error emit]);
    cbn [trace fst git_commands map app];
    first [ exists 0; reflexivity | exists 1; reflexivity
          | exists 2; reflexivity | exists 3; reflexivity
          | exists 4; reflexivity | exists 5; reflexivity
          | exists 6; reflexivity | exists 7; reflexivity
          | exists 8; reflexivity | exists 9; reflexivity
          | exists 10; reflexivity ].
Qed.

(** C8.  Once the owner and the repository are resolved, the push
    operation issues its git commands on the local project path in this
    order: init, add of all files, commit with the given message, the
    listing of the local branches followed by the checkout of [main]
    (created when the listing does not include it), the listing of the
    remotes followed by the removal of [origin] when it is present and by its
    addition with the authenticated URL, the pull of [origin main] with
    rebase, and the push with [-u origin main].  Whatever fails, the commands
    issued are an initial part of that list; when the git handle is obtained
    and no command other than the pull fails (a failing pull is tolerated),
    the whole list is issued and the operation reports success. *)
Theorem push_steps_in_order (w : World) (params : PushParams.t)
    (owner : Owner) (data : Repo) :
  users_getAuthenticated w UsersGetAuthenticated = Ok owner ->
  repos_get w (ReposGet (login owner) (PushParams.repoName params)) = Ok data ->
  (exists n,
      git_commands (trace (gitPush_func w params))
      = firstn n (map (pair (Some (projectPath w params)))
                    (push_steps w params data))) /\
  (simpleGit_fault w (Some (projectPath w params)) = None ->
   (forall cmd,
       is_pull cmd = false ->
       git_fault w (Some (projectPath w params)) cmd = None) ->
   outcome (gitPush_func w params) = Ok "✅ Files pushed successfully!" /\
   git_commands (trace (gitPush_func w params))
   = map (pair (Some (projectPath w params))) (push_steps w params data)).
Proof.
  intros Howner Hget. split.
  - exact (push_steps_prefix w params owner data Howner Hget).
  - exact (push_steps_complete w params owner data Howner Hget).
Qed.

Lemma push_steps_in_order_witness :
  outcome (gitPush_func (demo_world down_engine)
             {| PushParams.repoName := "demo";
                PushParams.commitMessage := "first import";
                PushParams.projectName := "site" |})
  = Ok "✅ Files pushed successfully!" /\
  git_commands
    (trace (gitPush_func (demo_world down_engine)
              {| PushParams.repoName := "demo";
                 PushParams.commitMessage := "first import";
                 PushParams.projectName := "site" |}))
  = map (pair (Some "/app/src/../site"))
      [ GitInit;
        GitAdd "./*";
        GitCommit "first import";
        GitBranchLocal;
        GitCheckoutLocalBranch "main";
        GitGetRemotes true;
        GitRemoveRemote "origin";
        GitAddRemote "origin" "https://TOKEN@github.com/octo/demo";
        GitPull "origin" "main" [("--rebase", "true")];
        GitPush ["-u"; "origin"; "main"] ].
Proof.
  apply (push_steps_in_order (demo_world down_engine)
           {| PushParams.repoName := "demo";
              PushParams.commitMessage := "first import";
              PushParams.projectName := "site" |} octo demo eq_refl eq_refl).
  - reflexivity.
  - intros cmd Hcmd. destruct cmd; try reflexivity. discriminate.
Defined.

(* ===================================================================== *)
(** ** C9: the clone destination *)
(* ===================================================================== *)

(** C9.  The clone action reads one input, the repository name: two
    argument objects with the same [repoName] run the same way.  Whatever the
    collaborators answer, every clone it issues goes to the fixed path
    [your local file path], from a handle with no directory of its own; and
    once the owner, the repository and the git handle are obtained, it
    issues exactly one clone, of the repository's clone URL, to that path. *)
Theorem clone_destination_is_fixed (w : World) :
  (forall args args',
      Zod.string "repoName" args = Zod.string "repoName" args' ->
      invoke gitCloneRepository w args = invoke gitCloneRepository w args') /\
  (forall params dir url path,
      In (dir, GitClone url path)
        (git_commands (trace (gitCloneRepository_func w params))) ->
      dir = None /\ path = "your local file path") /\
  (forall params owner data,
      users_getAuthenticated w UsersGetAuthenticated = Ok owner ->
      repos_get w (ReposGet (login owner) (RepoParams.repoName params))
      = Ok data ->
      simpleGit_fault w None = None ->
      git_commands (trace (gitCloneRepository_func w params))
      = [(None, GitClone (repo_clone_url data) "your local file path")]).
Proof.
  split; [| split].
  - intros args args' Hsame.
    unfold gitCloneRepository, tool, RepoParams.schema. cbn [invoke].
    rewrite Hsame. reflexivity.
  - intros params dir url path.
    unfold gitCloneRepository_func, gitCloneRepository_try, getOwner, getRepoDetails, octokit, git,
      simpleGit.
    cbn [bind try_catch ret app].
    destruct (users_getAuthenticated w UsersGetAuthenticated) as [owner | e1];
      cbn [bind try_catch ret app console_error emit trace fst git_commands];
      [| intros []].
    destruct (repos_get w _) as [data | e2];
      cbn [bind try_catch ret app console_error emit trace fst git_commands];
      [| intros []].
    destruct (simpleGit_fault w None) as [e0 |];
      cbn [bind try_catch ret app console_error emit trace fst git_commands];
      [intros [] |].
    destruct (git_fault w None _) as [e3 |];
      cbn [bind try_catch ret app console_error emit trace fst git_commands];
      (intros [Heq | []]; injection Heq as <- _ <-; split; reflexivity).
  - intros params owner data Howner Hget Hhandle.
    unfold gitCloneRepository_func, gitCloneRepository_try, getOwner, getRepoDetails, octokit, git,
      simpleGit.
    cbn [bind try_catch ret app]. rewrite Howner.
    cbn [bind try_catch ret app]. rewrite Hget.
    cbn [bind try_catch ret app]. rewrite Hhandle.
    cbn [bind try_catch ret app].
    destruct (git_fault w None _); reflexivity.
Qed.

Lemma clone_destination_is_fixed_witness :
  git_commands
    (trace (gitCloneRepository_func (demo_world down_engine)
              {| RepoParams.repoName := "demo" |}))
  = [(None, GitClone "https://github.com/octo/demo.git" "your local file path")].
Proof.
  apply (proj2 (proj2 (clone_destination_is_fixed (demo_world down_engine)))
           {| RepoParams.repoName := "demo" |} octo demo);
    reflexivity.
Defined.

(* ===================================================================== *)
(** ** C10: the private flag of an update *)
(* ===================================================================== *)

(** C10.  Every update request the update-repository action sends carries
    the visibility argument as given and a private flag that is true exactly
    when that argument is the text [private]; with [internal], or with no
    visibility at all, the flag is false.  The request is sent as soon as
    the owner is resolved. *)
Theorem update_private_flag (w : World) (params : UpdateParams.t) :
  (forall owner repo description visibility private,
      In (ReposUpdate owner repo description visibility private)
        (api_requests (trace (updateRepository_func w params))) ->
      visibility = UpdateParams.visibility params /\
      (private = true <-> UpdateParams.visibility params = Some "private") /\
      (UpdateParams.visibility params = Some "internal" -> private = false) /\
      (UpdateParams.visibility params = None -> private = false)) /\
  (forall owner,
      users_getAuthenticated w UsersGetAuthenticated = Ok owner ->
      api_requests (trace (updateRepository_func w params))
      = [ UsersGetAuthenticated;
          ReposUpdate (login owner) (UpdateParams.repoName params)
            (UpdateParams.description params)
            (UpdateParams.visibility params)
            (strict_equal (UpdateParams.visibility params) "private") ]).
Proof.
  split.
  - intros owner repo description visibility private.
    unfold updateRepository_func, updateRepository_try, getOwner, octokit.
    cbn [bind try_catch ret app].
    destruct (users_getAuthenticated w UsersGetAuthenticated) as [who | e1];
      cbn [bind try_catch ret app console_error emit trace fst api_requests].
    + destruct (repos_update w _) as [[] | e2];
        cbn [bind try_catch ret app console_error emit trace fst api_requests];
        (intros [Hauth | [Heq | []]]; [discriminate |];
         injection Heq as _ _ _ <- <-;
         split; [reflexivity |];
         destruct (UpdateParams.visibility params) as [v |]; simpl;
         [ destruct (String.eqb v "private") eqn:Ev;
           [ apply String.eqb_eq in Ev; subst v
           | apply String.eqb_neq in Ev ]
         | ];
         repeat split; congruence).
    + intros [Hauth | []]. discriminate.
  - intros owner Howner.
    unfold updateRepository_func, updateRepository_try, getOwner, octokit.
    cbn [bind try_catch ret app]. rewrite Howner.
    cbn [bind try_catch ret app].
    destruct (repos_update w _) as [[] | e2];
      destruct (strict_equal _ _); reflexivity.
Qed.

Lemma update_private_flag_witness :
  api_requests
    (trace (updateRepository_func (demo_world down_engine)
              {| UpdateParams.description := None;
                 UpdateParams.repoName := "demo";
                 UpdateParams.visibility := Some "internal" |}))
  = [ UsersGetAuthenticated;
      ReposUpdate "octo" "demo" None (Some "internal") false ].
Proof.
  apply (proj2 (update_private_flag (demo_world down_engine)
                  {| UpdateParams.description := None;
                     UpdateParams.repoName := "demo";
                     UpdateParams.visibility := Some "internal" |}) octo).
  reflexivity.
Defined.

(* ===================================================================== *)
(** ** Further properties of the tools *)
(* ===================================================================== *)

Lemma zod_string_get (key : string) (args : Zod.Args) (s : string) :
  Zod.string key args = Some s -> JS.get key args = Some (JS.JString s).
Proof.
  unfold Zod.string. destruct (JS.get key args) as [[] |]; try discriminate.
  intros [= ->]. reflexivity.
Qed.

(** X1.  The create-repository action sends exactly one request, whatever
    the answer: a POST for a public repository without README, with the given
    name and description; it touches no local repository.  An accepted
    request yields the success text followed by the repository's page URL, a
    rejected one is logged and yields the failure text. *)
Theorem create_repository_request (w : World) (params : CreateParams.t) :
  let req :=
    PostUserRepos (CreateParams.repoName params)
      (CreateParams.description params) "https://github.com" false false
      [("X-GitHub-Api-Version", "2022-11-28")] in
  api_requests (trace (createGitRepository_func w params)) = [req] /\
  git_commands (trace (createGitRepository_func w params)) = [] /\
  (forall data,
      post_user_repos w req = Ok data ->
      createGitRepository_func w params
      = ([Octokit req],
         Ok ("git repository created successfully!! " ++ repo_html_url data))) /\
  (forall e,
      post_user_repos w req = Thrown e ->
      createGitRepository_func w params
      = ([Octokit req; ConsoleError "ERROR: " e],
         Ok "Not able to create git repository, try again later")).
Proof.
  cbv zeta. unfold createGitRepository_func, createGitRepository_try, octokit.
  cbn [bind try_catch ret app].
  destruct (post_user_repos w _) as [data | e]; repeat split;
    try reflexivity; intros x [= <-]; reflexivity.
Qed.

Lemma create_repository_request_witness :
  createGitRepository_func (demo_world down_engine)
    {| CreateParams.repoName := "demo"; CreateParams.description := "test" |}
  = ([ Octokit (PostUserRepos "demo" "test" "https://github.com" false false
                  [("X-GitHub-Api-Version", "2022-11-28")]) ],
     Ok "git repository created successfully!! https://github.com/octo/demo").
Proof.
  apply (proj1 (proj2 (proj2
           (create_repository_request (demo_world down_engine)
              {| CreateParams.repoName := "demo";
                 CreateParams.description := "test" |}))) demo).
  reflexivity.
Defined.

(** X2.  The delete action reports success exactly when the owner is
    resolved and the delete request is answered with status 204; in every
    other case (another status, no status, a rejected request) it returns the
    failure text. *)
Theorem delete_success_iff_204 (w : World) (params : RepoParams.t) :
  (outcome (deleteRepository_func w params)
   = Ok "Repository deleted successfully!"
   <-> exists owner,
         users_getAuthenticated w UsersGetAuthenticated = Ok owner /\
         repos_delete w (ReposDelete (login owner) (RepoParams.repoName params))
         = Ok (Some 204%Z)) /\
  (outcome (deleteRepository_func w params)
   = Ok "Repository deleted successfully!" \/
   outcome (deleteRepository_func w params)
   = Ok "Not able to delete the repository").
Proof.
  unfold deleteRepository_func, deleteRepository_try, getOwner, octokit.
  cbn [bind try_catch ret app].
  destruct (users_getAuthenticated w UsersGetAuthenticated) as [owner | e1];
    cbn [bind try_catch ret app console_error emit outcome snd].
  - destruct (repos_delete w _) as [[status |] | e2] eqn:Hdel;
      cbn [bind try_catch ret app console_error emit outcome snd].
    + destruct (Z.eqb_spec status 204) as [-> | Hne];
        cbn [bind try_catch ret app outcome snd].
      * split; [| left; reflexivity].
        split; [intros _; exists owner; split; [reflexivity | exact Hdel]
               | reflexivity].
      * split; [| right; reflexivity].
        split; [discriminate |].
        intros (owner' & [= <-] & Hdel'). rewrite Hdel in Hdel'.
        injection Hdel' as ->. contradiction.
    + split; [| right; reflexivity].
      split; [discriminate |].
      intros (owner' & [= <-] & Hdel'). rewrite Hdel in Hdel'. discriminate.
    + split; [| right; reflexivity].
      split; [discriminate |].
      intros (owner' & [= <-] & Hdel'). rewrite Hdel in Hdel'. discriminate.
  - split; [| right; reflexivity].
    split; [discriminate |]. intros (owner' & Hauth & _). discriminate.
Qed.

(** X3.  Every tool but the create action resolves the owner first; when
    that request is rejected the tool does nothing else: no other request, no
    git command, one logged fault, and its failure text as the result. *)
Theorem owner_lookup_failure_stops_tool (t : StructuredTool) (w : World)
    (args : Zod.Args) (m : M string) (e : Fault) :
  In t tools ->
  tool_name t <> "create-git-respository" ->
  users_getAuthenticated w UsersGetAuthenticated = Thrown e ->
  invoke t w args = Some m ->
  m = ([Octokit UsersGetAuthenticated; ConsoleError "ERROR: " e],
       Ok (failure_text (tool_name t))).
Proof.
  intros Hin Hname Hauth Hinv. simpl in Hin.
  destruct Hin as [<- | Hin]; [contradiction Hname; reflexivity |].
  repeat (destruct Hin as [<- | Hin]); try contradiction;
    cbn [invoke tool deleteRepository getRepository
         gitPush gitCloneRepository getCommitsByRepoName
         createOrUpdateGitFile updateRepository] in Hinv;
    match type of Hinv with
    | option_map _ ?parsed = _ => destruct parsed as [p |]
    end; simpl in Hinv; try discriminate;
    injection Hinv as <-;
    unfold deleteRepository_func, deleteRepository_try, getRepository_func, getRepository_try, gitPush_func, gitPush_try,
      gitCloneRepository_func, gitCloneRepository_try, getCommitsByRepoName_func, getCommitsByRepoName_try,
      createOrUpdateGitFile_func, createOrUpdateGitFile_try, updateRepository_func, updateRepository_try, getOwner, octokit;
    cbn [bind try_catch ret app]; rewrite Hauth; reflexivity.
Qed.

Lemma owner_lookup_failure_stops_tool_witness :
  gitPush_func (offline_world down_engine)
    {| PushParams.repoName := "demo";
       PushParams.commitMessage := "first import";
       PushParams.projectName := "site" |}
  = ([ Octokit UsersGetAuthenticated;
       ConsoleError "ERROR: " (RequestError 401 "Bad credentials") ],
     Ok "❌ Git push operation failed").
Proof.
  apply (owner_lookup_failure_stops_tool gitPush (offline_world down_engine)
           [ ("repoName", JS.JString "demo");
             ("commitMessage", JS.JString "first import");
             ("projectName", JS.JString "site") ]).
  - simpl. tauto.
  - discriminate.
  - reflexivity.
  - reflexivity.
Defined.

Ltac scoped_leaf :=
  cbn [trace fst api_requests];
  let Hin := fresh "Hin" in
  let Htarget := fresh "Htarget" in
  intros Hin Htarget;
  repeat (destruct Hin as [<- | Hin]); try contradiction;
  try discriminate Htarget;
  injection Htarget as <- <-;
  (split;
   [ reflexivity
   | eexists; split; [first [eassumption | reflexivity] | reflexivity] ]).

Lemma scoped_delete (w : World) (p : RepoParams.t) :
  scoped w (RepoParams.repoName p) (deleteRepository_func w p).
Proof.
  intros req o r. unfold deleteRepository_func, deleteRepository_try, getOwner, octokit.
  run_world w; scoped_leaf.
Qed.

Lemma scoped_getRepository (w : World) (p : RepoParams.t) :
  scoped w (RepoParams.repoName p) (getRepository_func w p).
Proof.
  intros req o r. unfold getRepository_func, getRepository_try, getOwner, getRepoDetails, octokit.
  run_world w; scoped_leaf.
Qed.

Lemma scoped_gitPush (w : World) (p : PushParams.t) :
  scoped w (PushParams.repoName p) (gitPush_func w p).
Proof.
  intros req o r.
  unfold gitPush_func, gitPush_try, getOwner, getRepoDetails, octokit, simpleGit, git.
  cbn [bind try_catch ret app].
  case_world w; cbn [bind try_catch ret app console_error emit];
    [| scoped_leaf].
  case_world w; cbn [bind try_catch ret app console_error emit];
    [| scoped_leaf].
  case_world w; cbn [bind try_catch ret app console_error emit];
    [scoped_leaf |].
  destruct (existsb (String.eqb "main") _);
    destruct (existsb (fun r => String.eqb (remote_name r) "origin") _);
    run_world w; scoped_leaf.
Qed.

Lemma scoped_gitClone (w : World) (p : RepoParams.t) :
  scoped w (RepoParams.repoName p) (gitCloneRepository_func w p).
Proof.
  intros req o r.
  unfold gitCloneRepository_func, gitCloneRepository_try, getOwner, getRepoDetails, octokit,
    simpleGit, git.
  run_world w; scoped_leaf.
Qed.

Lemma scoped_getCommits (w : World) (p : RepoParams.t) :
  scoped w (RepoParams.repoName p) (getCommitsByRepoName_func w p).
Proof.
  intros req o r. unfold getCommitsByRepoName_func, getCommitsByRepoName_try, getOwner, octokit.
  run_world w; try scoped_leaf.
  match goal with
  | |- context [array_map commitEntry ?l] =>
      pose proof (commitEntry_no_effects l) as Hnone;
      destruct (array_map commitEntry l) as [t [entries | e]];
      simpl in Hnone; subst t
  end; cbn [bind try_catch ret app console_error emit]; scoped_leaf.
Qed.

Lemma scoped_createOrUpdate (w : World) (p : FileParams.t) :
  scoped w (FileParams.repoName p) (createOrUpdateGitFile_func w p).
Proof.
  intros req o r. unfold createOrUpdateGitFile_func, createOrUpdateGitFile_try, getOwner, octokit.
  run_world w; scoped_leaf.
Qed.

Lemma scoped_update (w : World) (p : UpdateParams.t) :
  scoped w (UpdateParams.repoName p) (updateRepository_func w p).
Proof.
  intros req o r. unfold updateRepository_func, updateRepository_try, getOwner, octokit.
  run_world w; scoped_leaf.
Qed.

Lemma scoped_create (w : World) (p : CreateParams.t) :
  scoped w (CreateParams.repoName p) (createGitRepository_func w p).
Proof.
  intros req o r. unfold createGitRepository_func, createGitRepository_try, octokit.
  run_world w; scoped_leaf.
Qed.

(** X4.  Whatever tool the model calls and whatever the collaborators
    answer, every repository request it sends (get, delete, list commits,
    write file, update) is about the repository named by the [repoName]
    argument, in the account of the authenticated user: no tool reaches
    another account or another repository. *)
Theorem requests_stay_in_own_account (t : StructuredTool) (w : World)
    (args : Zod.Args) (m : M string) :
  In t tools ->
  invoke t w args = Some m ->
  exists repo,
    JS.get "repoName" args = Some (JS.JString repo) /\
    scoped w repo m.
Proof.
  intros Hin Hinv. simpl in Hin.
  repeat (destruct Hin as [<- | Hin]); try contradiction;
    cbn [invoke tool createGitRepository deleteRepository getRepository
         gitPush gitCloneRepository getCommitsByRepoName
         createOrUpdateGitFile updateRepository] in Hinv;
    unfold CreateParams.schema, RepoParams.schema, PushParams.schema,
      FileParams.schema, UpdateParams.schema in Hinv;
    destruct (Zod.string "repoName" args) as [repo |] eqn:Hrepo;
    repeat match type of Hinv with
      | context [match ?x with _ => _ end] => destruct x
      end;
    try discriminate Hinv; cbn [option_map] in Hinv;
    injection Hinv as <-;
    exists repo; (split; [exact (zod_string_get _ _ _ Hrepo) |]).
  - exact (scoped_create w _).
  - exact (scoped_delete w _).
  - exact (scoped_getRepository w _).
  - exact (scoped_gitPush w _).
  - exact (scoped_gitClone w _).
  - exact (scoped_getCommits w _).
  - exact (scoped_createOrUpdate w _).
  - exact (scoped_update w _).
Qed.

Lemma requests_stay_in_own_account_witness :
  exists repo,
    JS.get "repoName" (call_args demo_request) = Some (JS.JString repo) /\
    scoped (demo_world down_engine) repo
      (getRepository_func (demo_world down_engine)
         {| RepoParams.repoName := "demo" |}).
Proof.
  apply (requests_stay_in_own_account getRepository
           (demo_world down_engine) (call_args demo_request)).
  - simpl. tauto.
  - reflexivity.
Defined.

(** X5.  When the repository cannot be looked up (the owner is not resolved,
    or the get request for the repository is rejected), the push and the
    clone actions issue no git command at all and return their failure
    texts: nothing is done to the local disk for a repository that was not
    found. *)
Theorem no_git_command_without_repository (w : World) (repo : string) :
  (forall owner,
      users_getAuthenticated w UsersGetAuthenticated = Ok owner ->
      exists e, repos_get w (ReposGet (login owner) repo) = Thrown e) ->
  (forall p,
      PushParams.repoName p = repo ->
      git_commands (trace (gitPush_func w p)) = [] /\
      outcome (gitPush_func w p) = Ok "❌ Git push operation failed") /\
  (forall p,
      RepoParams.repoName p = repo ->
      git_commands (trace (gitCloneRepository_func w p)) = [] /\
      outcome (gitCloneRepository_func w p) = Ok "repo cloning is failed").
Proof.
  intros Hmissing. split; intros p <-.
  - unfold gitPush_func, gitPush_try, getOwner, getRepoDetails, octokit.
    cbn [bind try_catch ret app].
    destruct (users_getAuthenticated w UsersGetAuthenticated)
      as [owner | e1] eqn:Hauth;
      cbn [bind try_catch ret app console_error emit];
      [| split; reflexivity].
    destruct (Hmissing owner eq_refl) as [e2 ->].
    split; reflexivity.
  - unfold gitCloneRepository_func, gitCloneRepository_try, getOwner, getRepoDetails, octokit.
    cbn [bind try_catch ret app].
    destruct (users_getAuthenticated w UsersGetAuthenticated)
      as [owner | e1] eqn:Hauth;
      cbn [bind try_catch ret app console_error emit];
      [| split; reflexivity].
    destruct (Hmissing owner eq_refl) as [e2 ->].
    split; reflexivity.
Qed.

Lemma no_git_command_without_repository_witness :
  git_commands
    (trace (gitPush_func (offline_world down_engine)
              {| PushParams.repoName := "demo";
                 PushParams.commitMessage := "first import";
                 PushParams.projectName := "site" |})) = [] /\
  outcome
    (gitPush_func (offline_world down_engine)
       {| PushParams.repoName := "demo";
          PushParams.commitMessage := "first import";
          PushParams.projectName := "site" |})
  = Ok "❌ Git push operation failed".
Proof.
  apply (proj1 (no_git_command_without_repository
                  (offline_world down_engine) "demo"
                  (fun owner H => ex_intro _ (RequestError 401 "Bad credentials")
                                    eq_refl))).
  reflexivity.
Defined.

(** X6.  A failure of any step of the push other than the pull makes the
    push operation return its failure text: only the pull is tolerated. *)
Theorem push_fails_when_a_step_fails (w : World) (p : PushParams.t)
    (owner : Owner) (data : Repo) (cmd : GitCmd) (e : Fault) :
  users_getAuthenticated w UsersGetAuthenticated = Ok owner ->
  repos_get w (ReposGet (login owner) (PushParams.repoName p)) = Ok data ->
  In cmd (push_steps w p data) ->
  is_pull cmd = false ->
  git_fault w (Some (projectPath w p)) cmd = Some e ->
  outcome (gitPush_func w p) = Ok "❌ Git push operation failed".
Proof.
  intros Howner Hget.
  unfold gitPush_func, gitPush_try, getOwner, getRepoDetails, octokit, simpleGit.
  cbn [bind try_catch ret app]. rewrite Howner.
  cbn [bind try_catch ret app]. rewrite Hget.
  fold (projectPath w p).
  unfold push_steps, authedUrl, git.
  destruct (simpleGit_fault w _); [reflexivity |].
  destruct (existsb (String.eqb "main") _);
    destruct (existsb (fun r => String.eqb (remote_name r) "origin") _);
    run_world w; intros Hin Hpull Hfault;
    first
      [ reflexivity
      | exfalso; cbn [In app] in Hin;
        repeat (destruct Hin as [<- | Hin]); try contradiction;
        try discriminate Hpull; congruence ].
Qed.

Lemma push_fails_when_a_step_fails_witness :
  outcome
    (gitPush_func
       {| GITHUB_ACCESS_TOKEN := Some "TOKEN";
          dirname := "/app/src";
          path_join := fun a b => a ++ "/" ++ b;
          users_getAuthenticated := fun _ => Ok octo;
          repos_get := fun _ => Ok demo;
          post_user_repos := fun _ => Ok demo;
          repos_delete := fun _ => Ok (Some 204%Z);
          repos_listCommits := fun _ => Ok [];
          repos_createOrUpdateFileContents := fun _ => Ok "";
          repos_update := fun _ => Ok tt;
          simpleGit_fault := fun _ => None;
          git_fault :=
            fun _ cmd =>
              match cmd with
              | GitCommit _ => Some (GitError "nothing to commit")
              | _ => None
              end;
          git_branches := fun _ => [];
          git_remotes := fun _ => [];
          llm_invoke := down_engine |}
       {| PushParams.repoName := "demo";
          PushParams.commitMessage := "first import";
          PushParams.projectName := "site" |})
  = Ok "❌ Git push operation failed".
Proof.
  apply (push_fails_when_a_step_fails _ _ octo demo
           (GitCommit "first import") (GitError "nothing to commit")).
  - reflexivity.
  - reflexivity.
  - simpl. tauto.
  - reflexivity.
  - reflexivity.
Defined.

Lemma string_app_assoc (a b c : string) : a ++ b ++ c = (a ++ b) ++ c.
Proof.
  induction a as [| x a IH]; simpl; [| rewrite IH]; reflexivity.
Qed.

Lemma strip_prefix_app (prefix rest : string) :
  JS.strip_prefix prefix (prefix ++ rest) = Some rest.
Proof.
  induction prefix as [| c prefix IH]; simpl.
  - destruct rest; reflexivity.
  - rewrite Ascii.eqb_refl. exact IH.
Qed.

Lemma replace_at_start (pattern replacement rest : string) :
  JS.replace pattern replacement (pattern ++ rest)
  = JS.expand pattern "" rest replacement ++ rest.
Proof.
  unfold JS.replace.
  pose proof (strip_prefix_app pattern rest) as Hstrip.
  destruct (pattern ++ rest) as [| c text]; simpl; rewrite Hstrip;
    reflexivity.
Qed.

Lemma has_dollar_app (a b : string) :
  has_dollar (a ++ b) = has_dollar a || has_dollar b.
Proof.
  induction a as [| c a IH]; simpl; [reflexivity |].
  rewrite IH, orb_assoc. reflexivity.
Qed.

(** A replacement without dollar sign is inserted as it is. *)
Lemma expand_literal (matched before after replacement : string) :
  has_dollar replacement = false ->
  JS.expand matched before after replacement = replacement.
Proof.
  induction replacement as [| c tail IH]; simpl; [reflexivity |].
  intros H. apply orb_false_elim in H as [Hc Htail].
  rewrite Hc, (IH Htail). reflexivity.
Qed.

(** X7.  For a repository whose page URL starts with [https://], the remote
    URL of the push is [https://], the access token and an [@], expanded as a
    replacement text (in which [$$], [$&], [$`] and [$'] are patterns),
    followed by the rest of the URL.  For a token without dollar sign that is
    the URL with the token and an [@] inserted right after the scheme, and
    with the text [undefined] in place of a token that is not set.  A push in
    which only the pull may fail adds exactly that URL as the remote
    [origin]. *)
Theorem push_remote_carries_token (w : World) (p : PushParams.t)
    (owner : Owner) (data : Repo) (rest : string) :
  repo_html_url data = "https://" ++ rest ->
  authedUrl w data
  = JS.expand "https://" "" rest ("https://" ++ token_text w ++ "@") ++ rest /\
  (has_dollar (token_text w) = false ->
   authedUrl w data
   = "https://"
       ++ match GITHUB_ACCESS_TOKEN w with
          | Some token => token
          | None => "undefined"
          end ++ "@" ++ rest) /\
  (users_getAuthenticated w UsersGetAuthenticated = Ok owner ->
   repos_get w (ReposGet (login owner) (PushParams.repoName p)) = Ok data ->
   simpleGit_fault w (Some (projectPath w p)) = None ->
   (forall cmd,
       is_pull cmd = false ->
       git_fault w (Some (projectPath w p)) cmd = None) ->
   In (Some (projectPath w p),
       GitAddRemote "origin"
         (JS.expand "https://" "" rest ("https://" ++ token_text w ++ "@")
            ++ rest))
     (git_commands (trace (gitPush_func w p)))).
Proof.
  intros Hurl.
  assert (Hauthed :
            authedUrl w data
            = JS.expand "https://" "" rest ("https://" ++ token_text w ++ "@")
                ++ rest).
  { unfold authedUrl. rewrite Hurl.
    exact (replace_at_start "https://" _ rest). }
  split; [exact Hauthed |]. split.
  - intros Hplain. rewrite Hauthed, expand_literal.
    + unfold token_text. cbn [String.append].
      rewrite <- string_app_assoc. reflexivity.
    + rewrite !has_dollar_app, Hplain. reflexivity.
  - intros Howner Hget Hhandle Hgit.
    destruct (push_steps_complete w p owner data Howner Hget Hhandle Hgit)
      as [_ ->].
    rewrite <- Hauthed. unfold push_steps. apply in_map.
    apply in_or_app. right. apply in_or_app. right. left. reflexivity.
Qed.

Lemma push_remote_carries_token_witness :
  authedUrl (demo_world down_engine) demo
  = "https://TOKEN@github.com/octo/demo" /\
  authedUrl (offline_world down_engine) demo
  = "https://undefined@github.com/octo/demo" /\
  authedUrl
    {| GITHUB_ACCESS_TOKEN := Some "a$&b";
       dirname := "/app/src";
       path_join := fun a b => a ++ "/" ++ b;
       users_getAuthenticated := fun _ => Ok octo;
       repos_get := fun _ => Ok demo;
       post_user_repos := fun _ => Ok demo;
       repos_delete := fun _ => Ok (Some 204%Z);
       repos_listCommits := fun _ => Ok [];
       repos_createOrUpdateFileContents := fun _ => Ok "";
       repos_update := fun _ => Ok tt;
       simpleGit_fault := fun _ => None;
       git_fault := fun _ _ => None;
       git_branches := fun _ => [];
       git_remotes := fun _ => [];
       llm_invoke := down_engine |}
    demo
  = "https://ahttps://b@github.com/octo/demo".
Proof.
  split; [| split].
  - apply (proj1 (proj2
             (push_remote_carries_token (demo_world down_engine)
                {| PushParams.repoName := "demo";
                   PushParams.commitMessage := "first import";
                   PushParams.projectName := "site" |}
                octo demo "github.com/octo/demo" eq_refl))).
    reflexivity.
  - apply (proj1 (proj2
             (push_remote_carries_token (offline_world down_engine)
                {| PushParams.repoName := "demo";
                   PushParams.commitMessage := "first import";
                   PushParams.projectName := "site" |}
                octo demo "github.com/octo/demo" eq_refl))).
    reflexivity.
  - match goal with
    | |- authedUrl ?W demo = _ =>
        rewrite (proj1
                   (push_remote_carries_token W
                      {| PushParams.repoName := "demo";
                         PushParams.commitMessage := "first import";
                         PushParams.projectName := "site" |}
                      octo demo "github.com/octo/demo" eq_refl))
    end.
    reflexivity.
Defined.

(** X8.  Once the owner, the repository and the git handle are obtained,
    the clone action's answer depends on the clone command alone: when it
    succeeds the answer names the account, the repository and the fixed
    destination; when it fails the fault is logged and the answer is the
    failure text. *)
Theorem clone_reports_repository (w : World) (p : RepoParams.t)
    (owner : Owner) (data : Repo) :
  users_getAuthenticated w UsersGetAuthenticated = Ok owner ->
  repos_get w (ReposGet (login owner) (RepoParams.repoName p)) = Ok data ->
  simpleGit_fault w None = None ->
  let clone := GitClone (repo_clone_url data) "your local file path" in
  let requests :=
    [ Octokit UsersGetAuthenticated;
      Octokit (ReposGet (login owner) (RepoParams.repoName p));
      Git None clone ] in
  (git_fault w None clone = None ->
   gitCloneRepository_func w p
   = (requests,
      Ok ("✅ Repo " ++ login owner ++ "/" ++ RepoParams.repoName p
            ++ " cloned into your local file path"))) /\
  (forall e,
      git_fault w None clone = Some e ->
      gitCloneRepository_func w p
      = ((requests ++ [ConsoleError "ERROR: " e])%list,
         Ok "repo cloning is failed")).
Proof.
  intros Howner Hget Hhandle. cbv zeta.
  unfold gitCloneRepository_func, gitCloneRepository_try, getOwner, getRepoDetails, octokit, git,
    simpleGit.
  cbn [bind try_catch ret app]. rewrite Howner.
  cbn [bind try_catch ret app]. rewrite Hget.
  cbn [bind try_catch ret app]. rewrite Hhandle.
  cbn [bind try_catch ret app].
  split.
  - intros ->. reflexivity.
  - intros e ->. reflexivity.
Qed.

Lemma clone_reports_repository_witness :
  gitCloneRepository_func (demo_world down_engine)
    {| RepoParams.repoName := "demo" |}
  = ([ Octokit UsersGetAuthenticated;
       Octokit (ReposGet "octo" "demo");
       Git None (GitClone "https://github.com/octo/demo.git"
                   "your local file path") ],
     Ok "✅ Repo octo/demo cloned into your local file path").
Proof.
  apply (proj1 (clone_reports_repository (demo_world down_engine)
                  {| RepoParams.repoName := "demo" |} octo demo
                  eq_refl eq_refl eq_refl)).
  reflexivity.
Defined.

Lemma array_map_commitEntry_null (commits : list Commit) :
  Exists (fun c => committer (commit c) = None) commits ->
  array_map commitEntry commits
  = ([], Thrown (TypeError "Cannot read properties of null (reading 'name')")).
Proof.
  induction commits as [| c commits IH]; intros Hex.
  - inversion Hex.
  - simpl. unfold commitEntry at 1.
    destruct (committer (commit c)) as [who |] eqn:Ewho; [| reflexivity].
    inversion Hex as [? ? Hnull | ? ? Htail]; subst; [congruence |].
    rewrite (IH Htail). reflexivity.
Qed.

(** X9.  One commit without a committer spoils the whole list: even though
    the API answered, the list-commits action logs a type error and returns
    its failure text instead of the commits. *)
Theorem commit_without_committer_fails (w : World) (p : RepoParams.t)
    (owner : Owner) (commits : list Commit) :
  users_getAuthenticated w UsersGetAuthenticated = Ok owner ->
  repos_listCommits w
    (ReposListCommits (login owner) (RepoParams.repoName p) 10 1)
  = Ok commits ->
  Exists (fun c => committer (commit c) = None) commits ->
  getCommitsByRepoName_func w p
  = ([ Octokit UsersGetAuthenticated;
       Octokit (ReposListCommits (login owner) (RepoParams.repoName p) 10 1);
       ConsoleError "ERROR: "
         (TypeError "Cannot read properties of null (reading 'name')") ],
     Ok "Not able to fetch commit details").
Proof.
  intros Howner Hlist Hnull.
  unfold getCommitsByRepoName_func, getCommitsByRepoName_try, getOwner, octokit.
  cbn [bind try_catch ret app]. rewrite Howner.
  cbn [bind try_catch ret app]. rewrite Hlist.
  cbn [bind try_catch ret app].
  rewrite (array_map_commitEntry_null commits Hnull). reflexivity.
Qed.

Lemma commit_without_committer_fails_witness :
  let orphan :=
    {| node_id := "C_2"; sha := "d4e5f6";
       commit := {| commit_message := "imported"; committer := None |} |} in
  outcome
    (getCommitsByRepoName_func
       {| GITHUB_ACCESS_TOKEN := Some "TOKEN";
          dirname := "/app/src";
          path_join := fun a b => a ++ "/" ++ b;
          users_getAuthenticated := fun _ => Ok octo;
          repos_get := fun _ => Ok demo;
          post_user_repos := fun _ => Ok demo;
          repos_delete := fun _ => Ok (Some 204%Z);
          repos_listCommits := fun _ => Ok [first_commit; orphan];
          repos_createOrUpdateFileContents := fun _ => Ok "";
          repos_update := fun _ => Ok tt;
          simpleGit_fault := fun _ => None;
          git_fault := fun _ _ => None;
          git_branches := fun _ => [];
          git_remotes := fun _ => [];
          llm_invoke := down_engine |}
       {| RepoParams.repoName := "demo" |})
  = Ok "Not able to fetch commit details".
Proof.
  cbv zeta.
  rewrite (commit_without_committer_fails _ {| RepoParams.repoName := "demo" |}
             octo
             [ first_commit;
               {| node_id := "C_2"; sha := "d4e5f6";
                  commit := {| commit_message := "imported";
                               committer := None |} |} ]).
  - reflexivity.
  - reflexivity.
  - reflexivity.
  - apply Exists_cons_tl. apply Exists_cons_hd. reflexivity.
Defined.

(** X10.  The update action reports success exactly when the owner is
    resolved and the update request is accepted, whatever the request
    changes; otherwise it returns its failure text. *)
Theorem update_success_iff_accepted (w : World) (p : UpdateParams.t) :
  (outcome (updateRepository_func w p)
   = Ok "Git repository updated successfully!"
   <-> exists owner,
         users_getAuthenticated w UsersGetAuthenticated = Ok owner /\
         repos_update w
           (ReposUpdate (login owner) (UpdateParams.repoName p)
              (UpdateParams.description p) (UpdateParams.visibility p)
              (strict_equal (UpdateParams.visibility p) "private"))
         = Ok tt) /\
  (outcome (updateRepository_func w p)
   = Ok "Git repository updated successfully!" \/
   outcome (updateRepository_func w p)
   = Ok "Not able to update the repository").
Proof.
  unfold updateRepository_func, updateRepository_try, getOwner, octokit.
  cbn [bind try_catch ret app].
  replace (if strict_equal (UpdateParams.visibility p) "private"
           then true else false)
    with (strict_equal (UpdateParams.visibility p) "private")
    by (destruct (strict_equal _ _); reflexivity).
  destruct (users_getAuthenticated w UsersGetAuthenticated) as [owner | e1];
    cbn [bind try_catch ret app console_error emit outcome snd].
  - destruct (repos_update w _) as [[] | e2] eqn:Hupd;
      cbn [bind try_catch ret app console_error emit outcome snd].
    + split; [| left; reflexivity].
      split; [intros _; exists owner; split; [reflexivity | exact Hupd]
             | reflexivity].
    + split; [| right; reflexivity].
      split; [discriminate |].
      intros (owner' & [= <-] & Hupd'). rewrite Hupd in Hupd'. discriminate.
  - split; [| right; reflexivity].
    split; [discriminate |]. intros (owner' & Hauth & _). discriminate.
Qed.

(** X11.  The update action lets only the three declared visibilities
    through: a call whose [visibility] is any other text is rejected before
    the execution function runs, and every update request of an accepted call
    carries [public], [private], [internal] or no visibility. *)
Theorem update_visibility_is_validated (w : World) (args : Zod.Args) :
  (forall v,
      JS.get "visibility" args = Some (JS.JString v) ->
      ~ In v ["public"; "private"; "internal"] ->
      invoke updateRepository w args = None) /\
  (forall m owner repo description visibility private,
      invoke updateRepository w args = Some m ->
      In (ReposUpdate owner repo description visibility private)
        (api_requests (trace m)) ->
      In visibility
        [None; Some "public"; Some "private"; Some "internal"]).
Proof.
  split.
  - intros v Hget Hnot.
    unfold updateRepository, tool, UpdateParams.schema, Zod.optional_enum.
    cbn [invoke]. rewrite Hget.
    destruct (existsb (String.eqb v) _) eqn:Hex.
    + exfalso. apply Hnot. apply existsb_exists in Hex as (x & Hx & Heq).
      apply String.eqb_eq in Heq. subst x. exact Hx.
    + destruct (Zod.optional_string "description" args);
        destruct (Zod.string "repoName" args); reflexivity.
  - intros m owner repo description visibility private Hinv.
    unfold updateRepository, tool, UpdateParams.schema in Hinv.
    cbn [invoke] in Hinv.
    destruct (Zod.optional_string "description" args) as [d |];
      [| discriminate].
    destruct (Zod.string "repoName" args) as [r |]; [| discriminate].
    destruct (Zod.optional_enum _ "visibility" args) as [v |] eqn:Henum;
      [| discriminate].
    injection Hinv as <-.
    assert (Hv : In v [None; Some "public"; Some "private"; Some "internal"]).
    { unfold Zod.optional_enum in Henum.
      destruct (JS.get "visibility" args) as [[| | | s | |] |];
        try discriminate; [| injection Henum as <-; left; reflexivity].
      destruct (existsb (String.eqb s) _) eqn:Hex; [| discriminate].
      injection Henum as <-.
      apply existsb_exists in Hex as (x & Hx & Heq).
      apply String.eqb_eq in Heq. subst x.
      right. simpl in Hx. simpl.
      destruct Hx as [<- | [<- | [<- | []]]]; tauto. }
    unfold updateRepository_func, updateRepository_try, getOwner, octokit.
    cbn [UpdateParams.repoName UpdateParams.description
         UpdateParams.visibility].
    run_world w; cbn [trace fst api_requests]; intros Hin;
      repeat (destruct Hin as [Heq | Hin]); try contradiction;
      try discriminate Heq; injection Heq as _ _ _ <- _; exact Hv.
Qed.

Lemma update_visibility_is_validated_witness :
  invoke updateRepository (demo_world down_engine)
    [("repoName", JS.JString "demo"); ("visibility", JS.JString "secret")]
  = None.
Proof.
  apply (proj1 (update_visibility_is_validated (demo_world down_engine)
                  [ ("repoName", JS.JString "demo");
                    ("visibility", JS.JString "secret") ]) "secret").
  - reflexivity.
  - simpl. intros [H | [H | [H | []]]]; discriminate.
Defined.

(* ===================================================================== *)
(** ** Further properties of the loop *)
(* ===================================================================== *)

(** X12.  The router looks at the last message only: it sends the turn to
    the tools exactly when that message is an assistant message with at least
    one request, ends the turn exactly when it is an assistant message with
    none, and throws when the history is empty or ends with any other kind of
    message. *)
Theorem shouldContinue_reads_last_message (state : State) :
  (shouldContinue state = Ok "tools"
   <-> exists h r,
         messages state = (h ++ [AI r])%list /\ tool_calls r <> []) /\
  (shouldContinue state = Ok "__end__"
   <-> exists h r,
         messages state = (h ++ [AI r])%list /\ tool_calls r = []) /\
  ((exists e, shouldContinue state = Thrown e)
   <-> messages state = [] \/
       exists h m,
         messages state = (h ++ [m])%list /\ forall r, m <> AI r).
Proof.
  destruct state as [l]. cbn [messages].
  destruct l as [| x l'].
  - repeat split.
    + discriminate.
    + intros (h & r & Habs & _). destruct h; discriminate.
    + discriminate.
    + intros (h & r & Habs & _). destruct h; discriminate.
    + intros _. left. reflexivity.
    + intros _. eexists. reflexivity.
  - destruct (exists_last (l := x :: l')) as (h & m & Heq); [discriminate |].
    rewrite Heq. clear Heq x l'.
    unfold shouldContinue. cbn [messages]. rewrite last_snoc.
    destruct m as [c | c | r | c n i].
    all: repeat split.
    all: try discriminate.
    all: try (intros (h' & r' & Heq & _);
              apply app_inj_tail in Heq as [_ Heq]; discriminate).
    all: try (intros _; right; exists h; eexists; split;
              [reflexivity | intros r' Habs; discriminate]).
    all: try (intros _; eexists; reflexivity).
    + intros Htools. exists h, r. split; [reflexivity |].
      destruct (tool_calls r); [discriminate Htools | discriminate].
    + intros (h' & r' & Heq & Hcalls).
      apply app_inj_tail in Heq as [_ [= <-]].
      destruct (tool_calls r); [contradiction | reflexivity].
    + intros Hend. exists h, r. split; [reflexivity |].
      destruct (tool_calls r); [reflexivity | discriminate Hend].
    + intros (h' & r' & Heq & Hcalls).
      apply app_inj_tail in Heq as [_ [= <-]]. rewrite Hcalls. reflexivity.
    + intros [e He]. destruct (tool_calls r); discriminate He.
    + intros [Habs | (h' & m' & Heq & Hnot)].
      * destruct h; discriminate.
      * apply app_inj_tail in Heq as [_ <-]. exfalso. exact (Hnot r eq_refl).
Qed.

Lemma answers_appended (calls : list ToolCall) (results : list Message) :
  Forall2 answers calls results ->
  forallb appended_by_loop results = true.
Proof.
  induction 1 as [| c m calls results (text & ->) _ IH];
    [reflexivity | exact IH].
Qed.

Lemma turn_invariant_extend (w : World) (h added : list Message) (turn : Turn) :
  forallb appended_by_loop added = true ->
  turn_invariant w (h ++ added) turn ->
  turn_invariant w h turn.
Proof.
  intros Hadded (suffix & Hhist & Hloop & Hend).
  exists (added ++ suffix)%list. split; [| split].
  - rewrite Hhist, app_assoc. reflexivity.
  - rewrite forallb_app, Hadded, Hloop. reflexivity.
  - destruct turn as [h' | e h' | node h']; [| exact Hend | exact I].
    destruct Hend as (mid & m & -> & Hfinal).
    exists (added ++ mid)%list, m. split; [| exact Hfinal].
    rewrite app_assoc. reflexivity.
Qed.

(** The invariant holds at both nodes of the loop, for every budget. *)
Lemma run_keeps_invariant (w : World) (fuel : nat) :
  (forall h, turn_invariant w h (snd (run graph w fuel "assistant" h))) /\
  (forall h r,
      turn_invariant w (h ++ [AI r])
        (snd (run graph w fuel "tools" (h ++ [AI r])))).
Proof.
  induction fuel as [| fuel [IHa IHt]].
  - split; intros; exists []; cbn [run String.eqb Ascii.eqb Bool.eqb snd
      history_of]; rewrite app_nil_r; repeat split.
  - split.
    + intros h. destruct (llm_invoke w h) as [r | e] eqn:Hllm.
      * rewrite (run_assistant w fuel h r Hllm). cbn [prepend snd].
        destruct (tool_calls r) as [| c calls] eqn:Hcalls.
        -- rewrite run_at_end. cbn [snd].
           exists [AI r]. split; [reflexivity |]. split; [reflexivity |].
           exists [], (AI r). split; [reflexivity |].
           exists r. split; [reflexivity | exact Hcalls].
        -- apply (turn_invariant_extend w h [AI r]); [reflexivity |].
           apply IHt.
      * rewrite (run_assistant_fault w fuel h e Hllm). cbn [snd].
        exists []. rewrite app_nil_r. repeat split. exact Hllm.
    + intros h r.
      destruct (run_tools w fuel h r) as (effects & results & _ & Hall & ->).
      cbn [prepend snd].
      apply (turn_invariant_extend w _ results);
        [exact (answers_appended _ _ Hall) | apply IHa].
Qed.

Lemma run_from_start_invariant (w : World) (fuel : nat) (h : list Message) :
  turn_invariant w h (snd (run graph w fuel START h)).
Proof.
  destruct fuel as [| fuel].
  - exists []. cbn [run String.eqb Ascii.eqb Bool.eqb snd history_of START END].
    rewrite app_nil_r. repeat split.
  - rewrite run_start. apply (proj1 (run_keeps_invariant w fuel)).
Qed.

(** X13.  A turn that finishes does so on a final answer: the history it
    returns is the history it started from, followed by messages appended by
    the loop, the last of which is an assistant message with no action
    request (the text [main] prints). *)
Theorem finished_turn_ends_on_final_answer (w : World) (fuel : nat)
    (h h' : list Message) (effects : list Event) :
  run graph w fuel START h = (effects, Done h') ->
  exists mid m,
    h' = (h ++ mid ++ [m])%list /\
    final_answer m /\
    forallb appended_by_loop mid = true /\
    last_content h' = content m.
Proof.
  intros Hrun. pose proof (run_from_start_invariant w fuel h) as Hinv.
  rewrite Hrun in Hinv. cbn [snd] in Hinv.
  destruct Hinv as (suffix & Hhist & Hloop & mid & m & -> & Hfinal).
  cbn [history_of] in Hhist. exists mid, m.
  split; [exact Hhist |]. split; [exact Hfinal |]. split.
  - rewrite forallb_app in Hloop. apply andb_prop in Hloop as [Hmid _].
    exact Hmid.
  - rewrite Hhist, app_assoc. unfold last_content. rewrite last_snoc.
    reflexivity.
Qed.

Lemma finished_turn_ends_on_final_answer_witness :
  exists mid m,
    [ System "You are a smart github personal assistant to create and manage github repositories.";
      Human "hello";
      AI {| ai_content := "Hi, how can I help?"; tool_calls := [] |} ]
    = (turn_input "hello" ++ mid ++ [m])%list /\
    final_answer m.
Proof.
  destruct (finished_turn_ends_on_final_answer
              (demo_world
                 (fun _ => Ok {| ai_content := "Hi, how can I help?";
                                 tool_calls := [] |}))
              2 (turn_input "hello")
              [ System "You are a smart github personal assistant to create and manage github repositories.";
                Human "hello";
                AI {| ai_content := "Hi, how can I help?"; tool_calls := [] |} ]
              [LlmInvoke (turn_input "hello")])
    as (mid & m & Heq & Hfinal & _).
  - reflexivity.
  - exists mid, m. split; [exact Heq | exact Hfinal].
Defined.

(** X14.  A run of the graph ends in one of three ways.  It finishes, on a
    final answer.  Or a node throws: then the node is the assistant node, the
    fault is the one the engine call threw, and the run stops with exactly
    the history that call was made on; the router and the tool node never
    throw during a run.  Or the step budget runs out before the run has
    finished.  In every case the history reached is the starting history
    followed by messages appended by the loop. *)
Theorem turn_ends_in_one_of_three_ways (w : World) (fuel : nat)
    (h : list Message) :
  (exists effects h' mid m,
      run graph w fuel START h = (effects, Done h') /\
      h' = (h ++ mid ++ [m])%list /\ final_answer m /\
      forallb appended_by_loop mid = true) \/
  (exists effects e h' suffix,
      run graph w fuel START h = (effects, Failed e h') /\
      llm_invoke w h' = Thrown e /\
      h' = (h ++ suffix)%list /\ forallb appended_by_loop suffix = true) \/
  (exists effects node h' suffix,
      run graph w fuel START h = (effects, OutOfFuel node h') /\
      h' = (h ++ suffix)%list /\ forallb appended_by_loop suffix = true).
Proof.
  pose proof (run_from_start_invariant w fuel h) as Hinv.
  destruct (run graph w fuel START h) as [effects [h' | e h' | node h']];
    cbn [snd] in Hinv; destruct Hinv as (suffix & Hhist & Hloop & Hend);
    cbn [history_of] in Hhist.
  - left. destruct Hend as (mid & m & -> & Hfinal).
    exists effects, h', mid, m. split; [reflexivity |].
    split; [exact Hhist |]. split; [exact Hfinal |].
    rewrite forallb_app in Hloop. apply andb_prop in Hloop as [Hmid _].
    exact Hmid.
  - right. left. exists effects, e, h', suffix.
    split; [reflexivity |]. split; [exact Hend |].
    split; [exact Hhist | exact Hloop].
  - right. right. exists effects, node, h', suffix.
    split; [reflexivity |]. split; [exact Hhist | exact Hloop].
Qed.

(** X15.  The loop only appends: however a turn goes and however long it
    is followed, the history it has reached is the history it started from,
    unchanged, followed by assistant messages and action results only. *)
Theorem loop_only_appends (w : World) (fuel : nat) (h : list Message) :
  exists suffix,
    history_of (snd (run graph w fuel START h)) = (h ++ suffix)%list /\
    forallb appended_by_loop suffix = true.
Proof.
  destruct (run_from_start_invariant w fuel h) as (suffix & Hhist & Hloop & _).
  exists suffix. split; [exact Hhist | exact Hloop].
Qed.

(** X16.  When the engine answers the first call of a turn without
    requesting an action, the turn makes that one engine call, runs no tool,
    stores the answer after the turn's input, and [main] prints the answer's
    text before it reads the next line. *)
Theorem direct_answer_is_printed (w : World) (fuel : nat)
    (store : MemorySaver) (query : string) (rest : list string)
    (r : AIMessage) :
  String.eqb query "bye" = false ->
  llm_invoke w (store "1" ++ turn_input query) = Ok r ->
  tool_calls r = [] ->
  main w (S (S fuel)) (query :: rest) store
  = prepend
      [ LlmInvoke (store "1" ++ turn_input query);
        ConsoleLog "AI: " (ai_content r) ]
      (main w (S (S fuel)) rest
         (save store "1" (store "1" ++ turn_input query ++ [AI r]))).
Proof.
  intros Hquery Hllm Hcalls. cbn [main]. rewrite Hquery.
  unfold agent_invoke. cbn [thread_id].
  rewrite run_start, (run_assistant w fuel _ r Hllm), Hcalls, run_at_end.
  cbn [prepend fst snd app history_of].
  unfold last_content. rewrite last_snoc. cbn [content].
  rewrite <- app_assoc.
  destruct (main w (S (S fuel)) rest _) as [effects' result].
  reflexivity.
Qed.

Lemma direct_answer_is_printed_witness :
  main (demo_world
          (fun _ => Ok {| ai_content := "Hi, how can I help?";
                          tool_calls := [] |}))
    2 ["hello"; "bye"] memory
  = ([ LlmInvoke (turn_input "hello");
       ConsoleLog "AI: " "Hi, how can I help?" ],
     (Closed,
      save memory "1"
        (turn_input "hello"
           ++ [AI {| ai_content := "Hi, how can I help?";
                     tool_calls := [] |}]))).
Proof.
  rewrite (direct_answer_is_printed
             (demo_world
                (fun _ => Ok {| ai_content := "Hi, how can I help?";
                                tool_calls := [] |}))
             0 memory "hello" ["bye"]
             {| ai_content := "Hi, how can I help?"; tool_calls := [] |}).
  - reflexivity.
  - reflexivity.
  - reflexivity.
  - reflexivity.
Defined.

(** X17.  The line [bye] closes the session without an engine call and
    without touching the store, and nothing typed after it is processed. *)
Theorem bye_closes_the_session (w : World) (fuel : nat)
    (before after : list string) (store : MemorySaver) :
  main w fuel ("bye" :: after) store = ([], (Closed, store)) /\
  main w fuel (before ++ "bye" :: after) store
  = main w fuel (before ++ ["bye"]) store.
Proof.
  split; [reflexivity |].
  revert store. induction before as [| query before IH]; intros store.
  - reflexivity.
  - cbn [app main]. destruct (String.eqb query "bye"); [reflexivity |].
    destruct (agent_invoke w fuel store (turn_input query) _)
      as [effects [[history | e history | node history] store']];
      [rewrite IH |..]; reflexivity.
Qed.

Lemma no_system_in_appended (l : list Message) :
  forallb appended_by_loop l = true -> filter is_system l = [].
Proof.
  induction l as [| m l IH]; [reflexivity |].
  cbn [forallb filter]. intros H. apply andb_prop in H as [Hm Hl].
  destruct m; try discriminate Hm; cbn [is_system]; exact (IH Hl).
Qed.

(** X18.  Every turn stores the system prompt again: whatever the turn's
    outcome, the stored history of the thread afterwards is the stored
    history before it, followed by the system prompt and the user's line,
    followed by messages appended by the loop; so the number of system
    messages in the history grows by exactly one per turn. *)
Theorem system_prompt_is_stored_every_turn (w : World) (fuel : nat)
    (store : MemorySaver) (query : string) :
  let store' :=
    snd (snd (agent_invoke w fuel store (turn_input query)
                {| thread_id := "1" |})) in
  exists suffix,
    store' "1"
    = (store "1"
         ++ [ System "You are a smart github personal assistant to create and manage github repositories.";
              Human query ]
         ++ suffix)%list /\
    forallb appended_by_loop suffix = true /\
    length (filter is_system (store' "1"))
    = length (filter is_system (store "1")) + 1.
Proof.
  cbv zeta. unfold agent_invoke. cbn [thread_id].
  destruct (run_from_start_invariant w fuel (store "1" ++ turn_input query))
    as (suffix & Hhist & Hloop & _).
  destruct (run graph w fuel START (store "1" ++ turn_input query))
    as [effects turn].
  cbn [snd] in Hhist |- *. unfold save. cbn [String.eqb Ascii.eqb Bool.eqb].
  exists suffix. rewrite Hhist, <- app_assoc.
  split; [reflexivity |]. split; [exact Hloop |].
  rewrite !filter_app, !length_app, (no_system_in_appended suffix Hloop).
  cbn [turn_input filter is_system length]. lia.
Qed.

(** X19.  A turn with one round of actions: when the engine first requests
    N >= 1 actions and, shown their results, answers without requesting more,
    the turn makes exactly two engine calls with the tools' effects in
    between, and ends with the history extended by the assistant message, the
    N results in request order, and the final answer. *)
Theorem one_round_then_answer (w : World) (fuel : nat) (h : list Message)
    (r1 r2 : AIMessage) (effects : list Event) (results : list Message) :
  llm_invoke w h = Ok r1 ->
  tool_calls r1 <> [] ->
  array_map (execute tools w) (tool_calls r1) = (effects, Ok results) ->
  llm_invoke w (h ++ [AI r1] ++ results) = Ok r2 ->
  tool_calls r2 = [] ->
  run graph w (S (S (S (S fuel)))) START h
  = (([LlmInvoke h] ++ effects ++ [LlmInvoke (h ++ [AI r1] ++ results)])%list,
     Done (h ++ [AI r1] ++ results ++ [AI r2])) /\
  Forall2 answers (tool_calls r1) results.
Proof.
  intros Hllm1 Hcalls1 Hmap Hllm2 Hcalls2.
  rewrite run_start, (run_assistant w _ h r1 Hllm1).
  destruct (tool_calls r1) as [| c calls] eqn:Ecalls; [contradiction |].
  destruct (run_tools w (S fuel) h r1)
    as (effects' & results' & Hmap' & Hall & ->).
  rewrite Ecalls in Hmap', Hall. rewrite Hmap in Hmap'.
  injection Hmap' as <- <-. split; [| exact Hall].
  rewrite app_assoc in Hllm2.
  rewrite (run_assistant w fuel _ r2 Hllm2), Hcalls2, run_at_end.
  unfold prepend. cbn [fst snd].
  rewrite <- !app_assoc. reflexivity.
Qed.

Lemma one_round_then_answer_witness :
  let engine :=
    fun history : list Message =>
      if Nat.ltb (length history) 3
      then Ok {| ai_content := ""; tool_calls := [demo_request] |}
      else Ok {| ai_content := "demo is a public repository.";
                 tool_calls := [] |} in
  exists effects result,
    run graph (demo_world engine) 4 START (turn_input "show demo")
    = (effects,
       Done (turn_input "show demo"
               ++ [AI {| ai_content := ""; tool_calls := [demo_request] |}]
               ++ [result]
               ++ [AI {| ai_content := "demo is a public repository.";
                         tool_calls := [] |}])) /\
    answers demo_request result.
Proof.
  cbv zeta.
  destruct (one_round_then_answer
              (demo_world
                 (fun history : list Message =>
                    if Nat.ltb (length history) 3
                    then Ok {| ai_content := "";
                               tool_calls := [demo_request] |}
                    else Ok {| ai_content := "demo is a public repository.";
                               tool_calls := [] |}))
              0 (turn_input "show demo")
              {| ai_content := ""; tool_calls := [demo_request] |}
              {| ai_content := "demo is a public repository.";
                 tool_calls := [] |}
              [Octokit UsersGetAuthenticated; Octokit (ReposGet "octo" "demo")]
              [ToolMessage (JS.stringify (repoDetails demo))
                 "get-repository-details" "call_1"])
    as [Hrun Hall].
  - reflexivity.
  - discriminate.
  - reflexivity.
  - reflexivity.
  - reflexivity.
  - eexists _, _. split; [exact Hrun |].
    inversion Hall; subst. assumption.
Defined.
